(** * A file-manager operation engine: model and verified properties

    Shallow embedding of [main.py] (class [Root] and its helpers): the
    listing pipeline, the selection and clipboard stores, collision
    resolution, the batch file operations, archive creation and the
    property aggregation.

    The file system, which the program reaches through [os], [shutil]
    and [zipfile], is modelled as a finite map from absolute path
    strings to nodes.  Every [Root] method is a function on the world
    state; a Python [try/except] becomes a match on the outcome of the
    guarded call. *)

From Stdlib Require Import ZArith Ascii String.
From stdpp Require Import base gmap sets list sorting strings pretty.

Local Open Scope Z_scope.

(** ** Python string primitives *)

Module PyStr.

Definition sep : ascii := "/"%char.
Definition extsep : ascii := "."%char.

(** [s.startswith(c)] and [s.endswith(c)] for a one-character [c]. *)
Definition startswith (c : ascii) (s : string) : bool :=
  match s with
  | String a _ => bool_decide (a = c)
  | EmptyString => false
  end.

Fixpoint endswith (c : ascii) (s : string) : bool :=
  match s with
  | EmptyString => false
  | String a EmptyString => bool_decide (a = c)
  | String _ r => endswith c r
  end.

(** [s == c * len(s)] *)
Fixpoint all_char (c : ascii) (s : string) : bool :=
  match s with
  | EmptyString => true
  | String a r => bool_decide (a = c) && all_char c r
  end.

(** [c in s] *)
Fixpoint has_char (c : ascii) (s : string) : bool :=
  match s with
  | EmptyString => false
  | String a r => bool_decide (a = c) || has_char c r
  end.

(** [(s[:i], s[i:])] with [i = s.rfind(c) + 1]. *)
Fixpoint rsplit_at (c : ascii) (s : string) : string * string :=
  match s with
  | EmptyString => (EmptyString, EmptyString)
  | String a r =>
      let '(h, t) := rsplit_at c r in
      if has_char c r then (String a h, t)
      else if bool_decide (a = c) then (String a EmptyString, r)
      else (EmptyString, String a r)
  end.

(** [s.rstrip(c)] *)
Fixpoint rstrip (c : ascii) (s : string) : string :=
  match s with
  | EmptyString => EmptyString
  | String a r =>
      match rstrip c r with
      | EmptyString => if bool_decide (a = c) then EmptyString
                       else String a EmptyString
      | r' => String a r'
      end
  end.

(** [s[:-1]] *)
Fixpoint drop_last (s : string) : string :=
  match s with
  | EmptyString => EmptyString
  | String _ EmptyString => EmptyString
  | String a r => String a (drop_last r)
  end.

(** [s[n:]] *)
Fixpoint sdrop (n : nat) (s : string) : string :=
  match n, s with
  | O, _ => s
  | S n', String _ r => sdrop n' r
  | S _, EmptyString => EmptyString
  end.

(** [str.lower] on the ASCII letters. *)
Definition lower_char (a : ascii) : ascii :=
  let n := nat_of_ascii a in
  if (Nat.leb 65 n && Nat.leb n 90)%bool then ascii_of_nat (n + 32) else a.

Fixpoint lower (s : string) : string :=
  match s with
  | EmptyString => EmptyString
  | String a r => String (lower_char a) (lower r)
  end.

(** [str.isspace] on the ASCII range. *)
Definition isspace (a : ascii) : bool :=
  let n := nat_of_ascii a in
  ((Nat.leb 9 n && Nat.leb n 13) || (Nat.leb 28 n && Nat.leb n 32))%bool.

Fixpoint lstrip (s : string) : string :=
  match s with
  | String a r => if isspace a then lstrip r else s
  | EmptyString => EmptyString
  end.

Fixpoint rstrip_space (s : string) : string :=
  match s with
  | EmptyString => EmptyString
  | String a r =>
      match rstrip_space r with
      | EmptyString => if isspace a then EmptyString else String a EmptyString
      | r' => String a r'
      end
  end.

(** [s.strip()] *)
Definition strip (s : string) : string := rstrip_space (lstrip s).

(** [q in s] for strings. *)
Fixpoint contains (q s : string) : bool :=
  String.prefix q s ||
  match s with
  | EmptyString => false
  | String _ r => contains q r
  end.

(** [s.endswith(suffix)] *)
Definition endswith_str (suffix s : string) : bool :=
  String.prefix (String.rev suffix) (String.rev s).

(** [str(n)] for a non-negative integer. *)
Definition of_nat (n : nat) : string := pretty n.

(** [s1 < s2] on strings: lexicographic on code points. *)
Definition ltb (s1 s2 : string) : bool := String.ltb s1 s2.

End PyStr.

(** ** [os.path] (POSIX flavour) *)

Module posixpath.
Import PyStr.

(** [os.path.join(a, b)] *)
Definition join (a b : string) : string :=
  if startswith sep b then b
  else if bool_decide (a = "") || endswith sep a then a +:+ b
  else a +:+ "/" +:+ b.

(** [os.path.split(p)] *)
Definition split (p : string) : string * string :=
  let '(head, tail) := rsplit_at sep p in
  if negb (bool_decide (head = "")) && negb (all_char sep head)
  then (rstrip sep head, tail)
  else (head, tail).

Definition basename (p : string) : string := snd (rsplit_at sep p).

Definition dirname (p : string) : string := fst (split p).

(** [os.path.splitext(p)]: the extension starts at the last dot of the
    last component, leading dots of that component not counting. *)
Definition splitext (p : string) : string * string :=
  let '(head, tail) := rsplit_at sep p in
  let '(pre, e) := rsplit_at extsep tail in
  if bool_decide (pre = "") then (p, "")
  else
    let stem := drop_last pre in
    if all_char extsep stem then (p, "")
    else (head +:+ stem, "." +:+ e).

(** The prefix that every path strictly inside [p] starts with. *)
Definition with_sep (p : string) : string :=
  if endswith sep p then p else p +:+ "/".

(** [k] lies strictly inside the directory [p]. *)
Definition under (p k : string) : bool :=
  negb (bool_decide (k = p)) && String.prefix (with_sep p) k.

(** [os.path.relpath(p, start)] for an absolute normalised [p] that
    lies inside [start] (the only use the program makes of it). *)
Definition relpath (p start : string) : string :=
  if String.prefix (with_sep start) p
  then sdrop (String.length (with_sep start)) p
  else p.

End posixpath.


(** ** Exceptions *)

Inductive exn : Type :=
  | FileNotFoundError (p : string)
  | FileExistsError (p : string)
  | PermissionError (p : string)
  | NotADirectoryError (p : string)
  | IsADirectoryError (p : string)
  | DirectoryNotEmpty (p : string)
  | InvalidArgument (p : string)
  | ShutilError (msg : string)
  | RecursionError.

(** [str(ex)] *)
Definition str_exn (e : exn) : string :=
  match e with
  | FileNotFoundError p => "[Errno 2] No such file or directory: '" +:+ p +:+ "'"
  | FileExistsError p => "[Errno 17] File exists: '" +:+ p +:+ "'"
  | PermissionError p => "[Errno 1] Operation not permitted: '" +:+ p +:+ "'"
  | NotADirectoryError p => "[Errno 20] Not a directory: '" +:+ p +:+ "'"
  | IsADirectoryError p => "[Errno 21] Is a directory: '" +:+ p +:+ "'"
  | DirectoryNotEmpty p => "[Errno 39] Directory not empty: '" +:+ p +:+ "'"
  | InvalidArgument p => "[Errno 22] Invalid argument: '" +:+ p +:+ "'"
  | ShutilError msg => msg
  | RecursionError => "maximum recursion depth exceeded"
  end.

Inductive result (A : Type) : Type :=
  | Ok (a : A)
  | Raise (e : exn).
Arguments Ok {A} a.
Arguments Raise {A} e.

(** ** The file system *)

Record stat_result : Type := mkStat { st_size : Z; st_mtime : Z }.

(** A regular file carries its [stat] result ([None]: the file cannot be
    stat'ed or opened) and, when it is a zip container, the names of its
    members.  Modification times are kept in an integer unit; only their
    order is observed. *)
Inductive node : Type :=
  | File (st : option stat_result) (members : option (list string))
  | Dir (mtime : Z).

(** [locked] holds the paths that the kernel refuses to unlink, rename
    or open ([PermissionError]); [clock] stamps what is created. *)
Record FS : Type := mkFS {
  nodes : gmap string node;
  locked : gset string;
  clock : Z
}.

Definition set_nodes (m : gmap string node) (fs : FS) : FS :=
  {| nodes := m; locked := locked fs; clock := clock fs |}.

Module os.
Import PyStr posixpath.

(** [os.path.exists], [os.path.isdir] *)
Definition exists_ (fs : FS) (p : string) : bool :=
  match nodes fs !! p with Some _ => true | None => false end.

Definition isdir (fs : FS) (p : string) : bool :=
  match nodes fs !! p with Some (Dir _) => true | _ => false end.

Definition is_locked (fs : FS) (p : string) : bool :=
  bool_decide (p ∈ locked fs).

(** [os.path.getsize] *)
Definition getsize (fs : FS) (p : string) : result Z :=
  match nodes fs !! p with
  | None => Raise (FileNotFoundError p)
  | Some (Dir _) => Ok 4096
  | Some (File None _) => Raise (PermissionError p)
  | Some (File (Some st) _) => Ok (st_size st)
  end.

(** All paths strictly inside [p], in directory order. *)
Definition inside (fs : FS) (p : string) : list string :=
  filter (λ k, under p k = true) (map fst (map_to_list (nodes fs))).

(** The name of [k] when [k] is an immediate child of [p]. *)
Definition child_name (p k : string) : option string :=
  if under p k then
    let name := sdrop (String.length (with_sep p)) k in
    if has_char sep name then None else Some name
  else None.

(** [os.scandir(p)]: names and nodes of the immediate children. *)
Definition scandir (fs : FS) (p : string) : result (list (string * node)) :=
  match nodes fs !! p with
  | None => Raise (FileNotFoundError p)
  | Some (File _ _) => Raise (NotADirectoryError p)
  | Some (Dir _) =>
      Ok (omap (λ kv, match child_name p (fst kv) with
                      | Some name => Some (name, snd kv)
                      | None => None
                      end) (map_to_list (nodes fs)))
  end.

(** [os.remove(p)] *)
Definition remove (fs : FS) (p : string) : FS * option exn :=
  match nodes fs !! p with
  | None => (fs, Some (FileNotFoundError p))
  | Some (Dir _) => (fs, Some (IsADirectoryError p))
  | Some (File _ _) =>
      if is_locked fs p then (fs, Some (PermissionError p))
      else (set_nodes (delete p (nodes fs)) fs, None)
  end.

(** [os.mkdir(p)] *)
Definition mkdir (fs : FS) (p : string) : FS * option exn :=
  if exists_ fs p then (fs, Some (FileExistsError p))
  else
    let parent := dirname p in
    match nodes fs !! parent with
    | None => (fs, Some (FileNotFoundError p))
    | Some (File _ _) => (fs, Some (NotADirectoryError p))
    | Some (Dir _) => (set_nodes (<[p := Dir (clock fs)]> (nodes fs)) fs, None)
    end.

(** [os.makedirs(name, exist_ok=False)]; the recursion is on the head
    of [name], which gets shorter, so [fuel] above its length is
    enough. *)
Fixpoint makedirs_rec (fuel : nat) (fs : FS) (name : string) : FS * option exn :=
  match fuel with
  | O => (fs, Some RecursionError)
  | S fuel' =>
      let '(head, tail) := split name in
      let '(head, tail) :=
        if bool_decide (tail = "") then split head else (head, tail) in
      if negb (bool_decide (head = "")) && negb (bool_decide (tail = ""))
         && negb (exists_ fs head)
      then
        match makedirs_rec fuel' fs head with
        | (fs1, Some (FileExistsError _)) | (fs1, None) =>
            if bool_decide (tail = ".") then (fs1, None) else mkdir fs1 name
        | (fs1, Some e) => (fs1, Some e)
        end
      else mkdir fs name
  end.

Definition makedirs (fs : FS) (name : string) : FS * option exn :=
  makedirs_rec (S (String.length name)) fs name.

(** Where the key [k] goes when the subtree at [src] is moved to [dst]. *)
Definition rekey (src dst k : string) : string :=
  if bool_decide (k = src) then dst
  else if under src k then dst +:+ sdrop (String.length src) k
  else k.

(** [os.rename(src, dst)] *)
Definition rename (fs : FS) (src dst : string) : FS * option exn :=
  match nodes fs !! src with
  | None => (fs, Some (FileNotFoundError src))
  | Some n =>
      if is_locked fs src then (fs, Some (PermissionError src))
      else if negb (isdir fs (dirname dst)) then (fs, Some (FileNotFoundError dst))
      else if bool_decide (src = dst) then (fs, None)
      else if under src dst then (fs, Some (InvalidArgument dst))
      else
        let go := set_nodes
          (list_to_map (map (λ kv, (rekey src dst (fst kv), snd kv))
                            (map_to_list (delete dst (nodes fs))))) fs in
        match n, nodes fs !! dst with
        | _, None => (go, None)
        | File _ _, Some (File _ _) =>
            if is_locked fs dst then (fs, Some (PermissionError dst)) else (go, None)
        | File _ _, Some (Dir _) => (fs, Some (IsADirectoryError dst))
        | Dir _, Some (File _ _) => (fs, Some (NotADirectoryError dst))
        | Dir _, Some (Dir _) =>
            match inside fs dst with
            | [] => (go, None)
            | _ :: _ => (fs, Some (DirectoryNotEmpty dst))
            end
        end
  end.

End os.

Definition node_is_dir (n : node) : bool :=
  match n with Dir _ => true | File _ _ => false end.

(** [os.walk(top)]: one triple (root, dirs, files) for [top] and for
    every directory below it; a [top] that cannot be listed yields
    nothing. *)
Definition os_walk (fs : FS) (top : string)
  : list (string * list string * list string) :=
  if os.isdir fs top then
    omap (λ root,
      match os.scandir fs root with
      | Ok entries =>
          Some (root,
                map fst (filter (λ e, node_is_dir (snd e) = true) entries),
                map fst (filter (λ e, node_is_dir (snd e) = false) entries))
      | Raise _ => None
      end)
      (top :: filter (λ k, os.isdir fs k = true) (os.inside fs top))
  else [].

Module shutil.
Import PyStr posixpath.

(** [shutil.rmtree(p)]: entries below [p] go first, [p] itself last;
    the first refusal raises and stops the removal. *)
Definition rmtree (fs : FS) (p : string) : FS * option exn :=
  match nodes fs !! p with
  | None => (fs, Some (FileNotFoundError p))
  | Some (File _ _) => (fs, Some (NotADirectoryError p))
  | Some (Dir _) =>
      match filter (λ k, os.is_locked fs k = true) (os.inside fs p) with
      | k :: _ => (fs, Some (PermissionError k))
      | [] =>
          let fs1 := set_nodes (filter (λ kv, under p (fst kv) = false) (nodes fs)) fs in
          if os.is_locked fs p then (fs1, Some (PermissionError p))
          else (set_nodes (delete p (nodes fs1)) fs1, None)
      end
  end.

(** [shutil.move(src, dst)] on a single device: a rename, into [dst]
    when [dst] is a directory. *)
Definition move (fs : FS) (src dst : string) : FS * option exn :=
  if os.isdir fs dst then
    if bool_decide (src = dst) then os.rename fs src dst
    else
      let real_dst := join dst (basename (rstrip sep src)) in
      if os.exists_ fs real_dst
      then (fs, Some (ShutilError
              ("Destination path '" +:+ real_dst +:+ "' already exists")))
      else os.rename fs src real_dst
  else os.rename fs src dst.

(** [shutil.copy2(src, dst)] *)
Definition copy2 (fs : FS) (src dst : string) : FS * option exn :=
  let dst := if os.isdir fs dst then join dst (basename src) else dst in
  match nodes fs !! src with
  | None => (fs, Some (FileNotFoundError src))
  | Some (Dir _) => (fs, Some (IsADirectoryError src))
  | Some (File None _) => (fs, Some (PermissionError src))
  | Some (File (Some st) z) =>
      if os.is_locked fs src then (fs, Some (PermissionError src))
      else if bool_decide (src = dst)
      then (fs, Some (ShutilError ("'" +:+ src +:+ "' and '" +:+ dst +:+ "' are the same file")))
      else if os.isdir fs dst then (fs, Some (IsADirectoryError dst))
      else if negb (os.isdir fs (dirname dst)) then (fs, Some (FileNotFoundError dst))
      else if os.is_locked fs dst then (fs, Some (PermissionError dst))
      else (set_nodes (<[dst := File (Some st) z]> (nodes fs)) fs, None)
  end.

(** One entry below the copied tree: directories are recreated,
    readable files copied, the rest reported. *)
Definition copy_entry (fs0 : FS) (src dst : string)
    (acc : gmap string node * list string) (k : string)
    : gmap string node * list string :=
  match nodes fs0 !! k with
  | Some (Dir _) => (<[os.rekey src dst k := Dir (clock fs0)]> (fst acc), snd acc)
  | Some (File (Some st) z) =>
      if os.is_locked fs0 k then (fst acc, snd acc ++ [k])
      else (<[os.rekey src dst k := File (Some st) z]> (fst acc), snd acc)
  | _ => (fst acc, snd acc ++ [k])
  end.

(** [shutil.copytree(src, dst)]: [dst] must not exist; what cannot be
    copied is collected and raised once the rest is done. *)
Definition copytree (fs : FS) (src dst : string) : FS * option exn :=
  match nodes fs !! src with
  | None => (fs, Some (FileNotFoundError src))
  | Some (File _ _) => (fs, Some (NotADirectoryError src))
  | Some (Dir _) =>
      match os.makedirs fs dst with
      | (fs1, Some e) => (fs1, Some e)
      | (fs1, None) =>
          let '(m, errors) :=
            foldl (copy_entry fs src dst) (nodes fs1, []) (os.inside fs src) in
          (set_nodes m fs1,
           match errors with
           | [] => None
           | k :: _ => Some (ShutilError ("[('" +:+ k +:+ "', ...)]"))
           end)
      end
  end.

End shutil.

(** ** [zipfile.ZipFile] in write mode *)

Module zipfile.
Import posixpath.

(** Opening for writing creates or truncates the file. *)
Definition open_w (fs : FS) (out_path : string) : FS * option exn :=
  match nodes fs !! out_path with
  | Some (Dir _) => (fs, Some (IsADirectoryError out_path))
  | _ =>
      if negb (os.isdir fs (dirname out_path))
      then (fs, Some (FileNotFoundError out_path))
      else if os.is_locked fs out_path then (fs, Some (PermissionError out_path))
      else (set_nodes (<[out_path := File (Some (mkStat 0 (clock fs))) (Some [])]>
                         (nodes fs)) fs, None)
  end.

(** [zf.write(filename, arcname)]: the member is read from disk. *)
Definition write (fs : FS) (members : list string) (filename arcname : string)
    : result (list string) :=
  match nodes fs !! filename with
  | None => Raise (FileNotFoundError filename)
  | Some (Dir _) => Ok (members ++ [arcname +:+ "/"])
  | Some (File None _) => Raise (PermissionError filename)
  | Some (File (Some _) _) =>
      if os.is_locked fs filename then Raise (PermissionError filename)
      else Ok (members ++ [arcname])
  end.

(** Leaving the [with] block closes the container: the central
    directory of the members written so far goes to disk.  [zbytes]
    is the byte length the deflate coder produced. *)
Definition close (fs : FS) (out_path : string) (members : list string)
    (zbytes : Z) : FS :=
  set_nodes (<[out_path := File (Some (mkStat zbytes (clock fs))) (Some members)]>
               (nodes fs)) fs.

End zipfile.

(** ** Data model *)

Module FMItem.
Record t : Type := mk {
  path : string;
  is_dir : bool;
  size : Z;
  mtime : Z
}.

(** [FMItem.name]: [os.path.basename(self.path) or self.path] *)
Definition name (i : t) : string :=
  let b := posixpath.basename (path i) in
  if bool_decide (b = "") then path i else b.
End FMItem.

(** [list_dir(path, include_hidden)] *)
Definition list_dir (fs : FS) (p : string) (include_hidden : bool)
  : result (list FMItem.t) :=
  match os.scandir fs p with
  | Raise ex => Raise ex
  | Ok entries =>
      Ok (omap (λ e : string * node,
            let '(ename, n) := e in
            if negb include_hidden && PyStr.startswith "."%char ename then None
            else
              match n with
              | File None _ => None
              | File (Some st) _ =>
                  Some (FMItem.mk (posixpath.join p ename) false (st_size st) (st_mtime st))
              | Dir m => Some (FMItem.mk (posixpath.join p ename) true 0 m)
              end) entries)
  end.

(** ** [list.sort(key=..., reverse=...)] *)

Section Sort.
Context {A : Type} (lt : A → A → bool).

(** [x] stood before every element of [l]: it goes behind the
    elements strictly below it and before its equals. *)
Fixpoint insert_sorted (x : A) (l : list A) : list A :=
  match l with
  | [] => [x]
  | y :: l' => if lt y x then y :: insert_sorted x l' else x :: l
  end.

Definition stable_sort (l : list A) : list A := foldr insert_sorted [] l.

(** With [reverse=True] the list is reversed, sorted and reversed
    again, which keeps equal elements in their original order. *)
Definition list_sort (reverse : bool) (l : list A) : list A :=
  if reverse then list.reverse (stable_sort (list.reverse l))
  else stable_sort l.
End Sort.

(** [<] on the key tuples [(not is_dir, k)]: the first components that
    differ decide. *)
Definition tuple_lt {X : Type} (eqb ltb : X → X → bool) (a b : bool * X) : bool :=
  if negb (Bool.eqb (fst a) (fst b)) then negb (fst a) && fst b
  else if negb (eqb (snd a) (snd b)) then ltb (snd a) (snd b)
  else false.

Definition name_key (i : FMItem.t) : bool * string := (negb (FMItem.is_dir i), PyStr.lower (FMItem.name i)).
Definition size_key (i : FMItem.t) : bool * Z := (negb (FMItem.is_dir i), FMItem.size i).
Definition date_key (i : FMItem.t) : bool * Z := (negb (FMItem.is_dir i), FMItem.mtime i).

(** The [items.sort(...)] of [reload], by [sort_key] and [sort_desc]. *)
Definition sort_items (sort_key : string) (sort_desc : bool) (items : list FMItem.t)
  : list FMItem.t :=
  if bool_decide (sort_key = "name") then
    list_sort (λ a b, tuple_lt String.eqb PyStr.ltb (name_key a) (name_key b)) sort_desc items
  else if bool_decide (sort_key = "size") then
    list_sort (λ a b, tuple_lt Z.eqb Z.ltb (size_key a) (size_key b)) sort_desc items
  else
    list_sort (λ a b, tuple_lt Z.eqb Z.ltb (date_key a) (date_key b)) sort_desc items.

(** ** The controller state *)

(** One row of [rv.data] (the [meta] text, a rendering of size and
    time for display, is left out). *)
Record Row : Type := mkRow {
  row_name : string;
  row_is_dir : bool;
  row_selected : bool;
  row_path : string
}.

(** The file-system calls a method issues, in order. *)
Inductive call : Type :=
  | CallMakedirs (p : string)
  | CallRename (src dst : string)
  | CallRmtree (p : string)
  | CallRemove (p : string)
  | CallMove (src dst : string)
  | CallCopytree (src dst : string)
  | CallCopy2 (src dst : string)
  | CallZipOpen (p : string).

(** The properties of [Root], followed by the world it acts on: the
    disk, the popups it has opened (a toast is a popup without title)
    and the file-system calls it has made.

    [selection] and [clipboard] are class attributes in the source; the
    application builds a single [Root], so they are fields here. *)
Record Root : Type := mkRoot {
  current_path : string;
  show_hidden : bool;
  search_query : string;
  sort_key : string;
  sort_desc : bool;
  status : string;
  selection : gset string;
  clipboard : list string;
  rv_data : list Row;
  disk : FS;
  popups : list (string * string);
  calls : list call
}.

Definition set_status (v : string) (st : Root) : Root :=
  mkRoot (current_path st) (show_hidden st) (search_query st) (sort_key st)
    (sort_desc st) v (selection st) (clipboard st) (rv_data st) (disk st)
    (popups st) (calls st).

Definition set_selection (v : gset string) (st : Root) : Root :=
  mkRoot (current_path st) (show_hidden st) (search_query st) (sort_key st)
    (sort_desc st) (status st) v (clipboard st) (rv_data st) (disk st)
    (popups st) (calls st).

Definition set_clipboard (v : list string) (st : Root) : Root :=
  mkRoot (current_path st) (show_hidden st) (search_query st) (sort_key st)
    (sort_desc st) (status st) (selection st) v (rv_data st) (disk st)
    (popups st) (calls st).

Definition set_rv_data (v : list Row) (st : Root) : Root :=
  mkRoot (current_path st) (show_hidden st) (search_query st) (sort_key st)
    (sort_desc st) (status st) (selection st) (clipboard st) v (disk st)
    (popups st) (calls st).

Definition set_disk (v : FS) (st : Root) : Root :=
  mkRoot (current_path st) (show_hidden st) (search_query st) (sort_key st)
    (sort_desc st) (status st) (selection st) (clipboard st) (rv_data st) v
    (popups st) (calls st).

Definition open_popup (title text : string) (st : Root) : Root :=
  mkRoot (current_path st) (show_hidden st) (search_query st) (sort_key st)
    (sort_desc st) (status st) (selection st) (clipboard st) (rv_data st)
    (disk st) (popups st ++ [(title, text)]) (calls st).

Definition log_call (c : call) (st : Root) : Root :=
  mkRoot (current_path st) (show_hidden st) (search_query st) (sort_key st)
    (sort_desc st) (status st) (selection st) (clipboard st) (rv_data st)
    (disk st) (popups st) (calls st ++ [c]).

(** [Root._toast] *)
Definition _toast (msg : string) (st : Root) : Root := open_popup "" msg st.

(** Runs a file-system call on the disk and records it; the disk keeps
    whatever the call did before it raised. *)
Definition syscall (c : call) (op : FS → FS * option exn) (st : Root)
  : Root * option exn :=
  let '(fs', r) := op (disk st) in
  (set_disk fs' (log_call c st), r).

(** [InputPopup]: OK hands the stripped text to [on_ok]; Cancel
    ([None]) only dismisses. *)
Definition InputPopup (on_ok : string → Root → Root) (answer : option string)
    (st : Root) : Root :=
  match answer with
  | Some text => on_ok (PyStr.strip text) st
  | None => st
  end.

(** [ConfirmPopup]: Yes runs [on_yes]. *)
Definition ConfirmPopup (on_yes : Root → Root) (answer : bool) (st : Root) : Root :=
  if answer then on_yes st else st.

(** ** Listing *)

(** The search filter and the sort of [reload]. *)
Definition pipeline (search_query sort_key : string) (sort_desc : bool)
    (items : list FMItem.t) : list FMItem.t :=
  let q := PyStr.strip (PyStr.lower search_query) in
  let items :=
    if negb (bool_decide (q = ""))
    then filter (λ i, PyStr.contains q (PyStr.lower (FMItem.name i)) = true) items
    else items in
  sort_items sort_key sort_desc items.

Definition make_row (sel : gset string) (it : FMItem.t) : Row :=
  mkRow (FMItem.name it) (FMItem.is_dir it)
    (bool_decide (FMItem.path it ∈ sel)) (FMItem.path it).

(** [Root.reload] *)
Definition reload (st : Root) : Root :=
  match list_dir (disk st) (current_path st) (show_hidden st) with
  | Raise ex => _toast (str_exn ex) st
  | Ok items =>
      let items := pipeline (search_query st) (sort_key st) (sort_desc st) items in
      let data := map (make_row (selection st)) items in
      set_status (PyStr.of_nat (length items) +:+ " items") (set_rv_data data st)
  end.

(** ** Selection *)

(** The set update of [toggle_select]. *)
Definition toggle (p : string) (sel : gset string) : gset string :=
  if decide (p ∈ sel) then sel ∖ {[p]} else sel ∪ {[p]}.

(** [Root.toggle_select]; an index outside [rv.data] raises inside the
    [try] and is swallowed. *)
Definition toggle_select (index : nat) (st : Root) : Root :=
  match rv_data st !! index with
  | None => st
  | Some row =>
      let st := set_selection (toggle (row_path row) (selection st)) st in
      let st := reload st in
      set_status ("Selected: " +:+ PyStr.of_nat (size (selection st))) st
  end.

(** [Root.select_all], [Root.clear_sel] *)
Definition select_all (st : Root) : Root :=
  reload (set_selection (list_to_set (map row_path (rv_data st))) st).

Definition clear_sel (st : Root) : Root := reload (set_selection ∅ st).

(** A Python set is iterated in an order of its own: the methods that
    iterate over [selection] take that order as an argument. *)
Definition iteration_of (sel : gset string) (order : list string) : Prop :=
  order ≡ₚ elements sel.

(** ** Actions *)

(** [Root.new_folder], the [_ok] callback *)
Definition new_folder_ok (name : string) (st : Root) : Root :=
  if bool_decide (name = "") then st
  else
    let dest := posixpath.join (current_path st) name in
    match syscall (CallMakedirs dest) (λ fs, os.makedirs fs dest) st with
    | (st, None) => reload st
    | (st, Some ex) => _toast (str_exn ex) st
    end.

Definition new_folder (answer : option string) (st : Root) : Root :=
  InputPopup new_folder_ok answer st.

(** [Root.rename_item], the [_ok] callback; [src] was read from the
    selection when the dialog opened. *)
Definition rename_ok (src new_name : string) (st : Root) : Root :=
  if bool_decide (new_name = "") then st
  else
    let dest := posixpath.join (posixpath.dirname src) new_name in
    match syscall (CallRename src dest) (λ fs, os.rename fs src dest) st with
    | (st, None) => reload (set_selection {[dest]} st)
    | (st, Some ex) => _toast (str_exn ex) st
    end.

Definition rename_item (answer : option string) (st : Root) : Root :=
  match elements (selection st) with
  | [src] => InputPopup (rename_ok src) answer st
  | _ => _toast "Select exactly one item to rename." st
  end.

(** The body of the [try] in [delete_items]. *)
Definition remove_item (fs : FS) (p : string) : FS * option exn :=
  if os.isdir fs p then shutil.rmtree fs p else os.remove fs p.

Definition delete_step (st : Root) (p : string) : Root :=
  let c := if os.isdir (disk st) p then CallRmtree p else CallRemove p in
  match syscall c (λ fs, remove_item fs p) st with
  | (st, None) => st
  | (st, Some ex) =>
      _toast ("Failed: " +:+ posixpath.basename p +:+ " — " +:+ str_exn ex) st
  end.

Definition delete_loop (order : list string) (st : Root) : Root :=
  foldl delete_step st order.

(** [Root.delete_items], the [_do] callback *)
Definition delete_do (order : list string) (st : Root) : Root :=
  reload (set_selection ∅ (delete_loop order st)).

Definition delete_items (order : list string) (answer : bool) (st : Root) : Root :=
  if bool_decide (selection st = ∅) then _toast "Nothing selected" st
  else ConfirmPopup (delete_do order) answer st.

(** [Root.copy_to_clipboard] *)
Definition copy_to_clipboard (order : list string) (st : Root) : Root :=
  if bool_decide (selection st = ∅) then _toast "Select files to copy" st
  else
    let st := set_clipboard order st in
    _toast ("Copied " +:+ PyStr.of_nat (length (clipboard st)) +:+ " to clipboard") st.

(** [Root.move_to_here]: one turn of the loop, the loop, the method. *)
Definition move_step (dest_dir : string) (st : Root) (src : string) : Root :=
  let base := posixpath.basename src in
  let dest := posixpath.join dest_dir base in
  match syscall (CallMove src dest) (λ fs, shutil.move fs src dest) st with
  | (st, None) => st
  | (st, Some ex) =>
      _toast ("Move failed: " +:+ posixpath.basename src +:+ " — " +:+ str_exn ex) st
  end.

Definition move_loop (dest_dir : string) (batch : list string) (st : Root) : Root :=
  foldl (move_step dest_dir) st batch.

Definition move_to_here (st : Root) : Root :=
  match clipboard st with
  | [] => _toast "Clipboard empty" st
  | _ :: _ =>
      let dest_dir := current_path st in
      let st := move_loop dest_dir (clipboard st) st in
      reload (set_clipboard [] st)
  end.

(** The name probed at counter [i]: [f"{base} ({i}){ext}"]. *)
Definition candidate (base ext : string) (i : nat) : string :=
  base +:+ " (" +:+ PyStr.of_nat i +:+ ")" +:+ ext.

(** [Root._dedupe_name]: the [while] loop, entered with counter [i];
    [fuel] bounds the number of probes. *)
Fixpoint dedupe_loop (fuel : nat) (fs : FS) (base ext : string) (i : nat)
  : option string :=
  match fuel with
  | O => None
  | S fuel' =>
      if os.exists_ fs (candidate base ext i)
      then dedupe_loop fuel' fs base ext (S i)
      else Some (candidate base ext i)
  end.

(** One probe more than there are paths on the disk. *)
Definition _dedupe_name (fs : FS) (p : string) : option string :=
  let '(base, ext) := posixpath.splitext p in
  dedupe_loop (S (size (nodes fs))) fs base ext 1.

(** Collision resolution as [paste_here] applies it to a destination:
    [if os.path.exists(dest): dest = self._dedupe_name(dest)]. *)
Definition resolve (fs : FS) (dest : string) : option string :=
  if os.exists_ fs dest then _dedupe_name fs dest else Some dest.

(** [Root.paste_here]: one turn of the loop ([resolve] never comes back
    empty-handed: its probe finds a free name before the fuel is used
    up), then the method. *)
Definition paste_step (dest_dir : string) (st : Root) (src : string) : Root :=
  let base := posixpath.basename src in
  let dest := posixpath.join dest_dir base in
  match resolve (disk st) dest with
  | None => st
  | Some dest =>
      let r :=
        if os.isdir (disk st) src
        then syscall (CallCopytree src dest) (λ fs, shutil.copytree fs src dest) st
        else syscall (CallCopy2 src dest) (λ fs, shutil.copy2 fs src dest) st in
      match r with
      | (st, None) => st
      | (st, Some ex) =>
          _toast ("Copy failed: " +:+ posixpath.basename src +:+ " — " +:+ str_exn ex) st
      end
  end.

Definition paste_here (st : Root) : Root :=
  match clipboard st with
  | [] => _toast "Clipboard empty" st
  | _ :: _ =>
      let dest_dir := current_path st in
      reload (foldl (paste_step dest_dir) st (clipboard st))
  end.

(** ** Archive creation *)

(** The [zf.write] calls that one selected path gives rise to, as
    (file, archive name) pairs. *)
Definition zip_jobs (fs : FS) (src : string) : list (string * string) :=
  if os.isdir fs src then
    flat_map (λ w : string * list string * list string,
      let '(root, _, files) := w in
      map (λ f, let abspath := posixpath.join root f in
                (abspath, posixpath.relpath abspath (posixpath.dirname src)))
          files)
      (os_walk fs src)
  else [(src, posixpath.basename src)].

(** The writes in turn, on the list of members written so far; the
    first one that raises ends the loop. *)
Fixpoint zip_write_all (fs : FS) (jobs : list (string * string))
    (members : list string) : list string * option exn :=
  match jobs with
  | [] => (members, None)
  | (filename, arcname) :: jobs' =>
      match zipfile.write fs members filename arcname with
      | Ok members' => zip_write_all fs jobs' members'
      | Raise ex => (members, Some ex)
      end
  end.

(** [Root.zip_selection], the [_ok] callback *)
Definition zip_ok (order : list string) (zbytes : Z) (name : string) (st : Root)
  : Root :=
  if bool_decide (name = "") then st
  else
    let out_path := posixpath.join (current_path st)
      (if PyStr.endswith_str ".zip" name then name else name +:+ ".zip") in
    match syscall (CallZipOpen out_path) (λ fs, zipfile.open_w fs out_path) st with
    | (st, Some ex) => _toast (str_exn ex) st
    | (st, None) =>
        let '(members, r) :=
          zip_write_all (disk st) (flat_map (zip_jobs (disk st)) order) [] in
        let st := set_disk (zipfile.close (disk st) out_path members zbytes) st in
        match r with
        | None => reload st
        | Some ex => _toast (str_exn ex) st
        end
    end.

Definition zip_selection (order : list string) (zbytes : Z)
    (answer : option string) (st : Root) : Root :=
  if bool_decide (selection st = ∅) then _toast "Select files/folders to zip" st
  else InputPopup (zip_ok order zbytes) answer st.

(** ** Properties *)

(** [total_size += os.path.getsize(...)] inside [try/except: pass] *)
Definition add_size (fs : FS) (total_size : Z) (p : string) : Z :=
  match os.getsize fs p with
  | Ok n => total_size + n
  | Raise _ => total_size
  end.

(** The loop of [props], on the pair (total_files, total_size). *)
Definition props_step (fs : FS) (acc : Z * Z) (p : string) : Z * Z :=
  if os.isdir fs p then
    foldl (λ (acc : Z * Z) (w : string * list string * list string),
      let '(root, _, files) := w in
      let total_files := fst acc + Z.of_nat (length files) in
      (total_files,
       foldl (λ total_size f, add_size fs total_size (posixpath.join root f))
             (snd acc) files))
      acc (os_walk fs p)
  else (fst acc + 1, add_size fs (snd acc) p).

Definition props_totals (fs : FS) (order : list string) : Z * Z :=
  foldl (props_step fs) (0, 0) order.

Definition newline : string := String (ascii_of_nat 10) EmptyString.

(** [Root.props] *)
Definition props (order : list string) (st : Root) : Root :=
  if bool_decide (selection st = ∅) then _toast "Select item(s)" st
  else
    let '(total_files, total_size) := props_totals (disk st) order in
    open_popup "Properties"
      ("Items: " +:+ PyStr.of_nat (size (selection st)) +:+ newline +:+
       "Files: " +:+ pretty total_files +:+ newline +:+
       "Size: " +:+ pretty total_size +:+ " bytes") st.

(** ** Sample worlds *)

Definition plain (sz mt : Z) : node := File (Some (mkStat sz mt)) None.

Definition unreadable : node := File None None.

Definition mk_disk (l : list (string * node)) (lk : list string) : FS :=
  mkFS (list_to_map l) (list_to_set lk) 1000.

(** A fresh [Root] showing [cur]. *)
Definition mk_root (cur key : string) (desc : bool) (sel clip : list string)
    (fs : FS) : Root :=
  mkRoot cur false "" key desc "Ready" (list_to_set sel) clip [] fs [] [].

(** [/tmp/x] holds the file [b.txt] (10 bytes) and the directory [A]. *)
Definition disk_x : FS :=
  mk_disk [("/", Dir 1); ("/tmp", Dir 1); ("/tmp/x", Dir 2);
           ("/tmp/x/b.txt", plain 10 3); ("/tmp/x/A", Dir 4)] [].

(** [/d] holds [a] (100 bytes), [b] (250 bytes) and an unreadable [c]. *)
Definition disk_d : FS :=
  mk_disk [("/", Dir 1); ("/d", Dir 2); ("/d/a", plain 100 3);
           ("/d/b", plain 250 4); ("/d/c", unreadable)] [].

(** [/w] holds the files [A], [B] and [C]; [B] is locked. *)
Definition disk_w : FS :=
  mk_disk [("/", Dir 1); ("/w", Dir 2); ("/w/A", plain 1 3);
           ("/w/B", plain 2 4); ("/w/C", plain 3 5)] ["/w/B"].

(** ** Grouping of a listing *)

(** Every directory row stands before every non-directory row. *)
Definition dirs_first (rows : list Row) : Prop :=
  ∀ (i j : nat) (a b : Row), (i < j)%nat →
    rows !! i = Some a → rows !! j = Some b →
    row_is_dir b = true → row_is_dir a = true.

(** Every non-directory row stands before every directory row. *)
Definition files_first (rows : list Row) : Prop :=
  ∀ (i j : nat) (a b : Row), (i < j)%nat →
    rows !! i = Some a → rows !! j = Some b →
    row_is_dir a = true → row_is_dir b = true.

(** ** Batch runs *)

(** The paths of the list are removed one after the other, each
    successfully, and the disk ends as the last argument says. *)
Inductive removes_all : FS → list string → FS → Prop :=
  | removes_nil fs : removes_all fs [] fs
  | removes_cons fs p fs1 ps fs2 :
      remove_item fs p = (fs1, None) →
      removes_all fs1 ps fs2 →
      removes_all fs (p :: ps) fs2.

(** The call [delete_items] makes for [p] on the disk [fs]. *)
Definition delete_call (fs : FS) (p : string) : call :=
  if os.isdir fs p then CallRmtree p else CallRemove p.

(** The toast [delete_items] shows when removing [p] raised [ex]. *)
Definition delete_failed (p : string) (ex : exn) : string * string :=
  ("", "Failed: " +:+ posixpath.basename p +:+ " — " +:+ str_exn ex).

(** The call [move_to_here] makes for [src]. *)
Definition move_call (dest_dir src : string) : call :=
  CallMove src (posixpath.join dest_dir (posixpath.basename src)).

(** [/w] with a directory [/t] to move into; [/t/A] is already there. *)
Definition disk_m : FS :=
  mk_disk [("/", Dir 1); ("/w", Dir 2); ("/w/A", plain 1 3);
           ("/w/B", plain 2 4); ("/w/C", plain 3 5);
           ("/t", Dir 6); ("/t/A", plain 9 9)] ["/w/B"].

(** [a.txt] next to [a (1).txt]. *)
Definition disk_a : FS :=
  mk_disk [("a.txt", plain 1 1); ("a (1).txt", plain 2 2)] [].

(** ** Navigation and the remaining UI hooks *)

Definition set_current_path (v : string) (st : Root) : Root :=
  mkRoot v (show_hidden st) (search_query st) (sort_key st)
    (sort_desc st) (status st) (selection st) (clipboard st) (rv_data st) (disk st)
    (popups st) (calls st).

Definition set_show_hidden (v : bool) (st : Root) : Root :=
  mkRoot (current_path st) v (search_query st) (sort_key st)
    (sort_desc st) (status st) (selection st) (clipboard st) (rv_data st) (disk st)
    (popups st) (calls st).

Definition set_search_query (v : string) (st : Root) : Root :=
  mkRoot (current_path st) (show_hidden st) v (sort_key st)
    (sort_desc st) (status st) (selection st) (clipboard st) (rv_data st) (disk st)
    (popups st) (calls st).

Definition set_sort_key (v : string) (st : Root) : Root :=
  mkRoot (current_path st) (show_hidden st) (search_query st) v
    (sort_desc st) (status st) (selection st) (clipboard st) (rv_data st) (disk st)
    (popups st) (calls st).

Definition set_sort_desc (v : bool) (st : Root) : Root :=
  mkRoot (current_path st) (show_hidden st) (search_query st) (sort_key st)
    v (status st) (selection st) (clipboard st) (rv_data st) (disk st)
    (popups st) (calls st).

(** [s.split("/")] *)
Fixpoint split_sep (s : string) : list string :=
  match s with
  | EmptyString => [EmptyString]
  | String a r =>
      if bool_decide (a = PyStr.sep) then EmptyString :: split_sep r
      else
        match split_sep r with
        | c :: cs => String a c :: cs
        | [] => [String a EmptyString]
        end
  end.

(** ["/".join(comps)] *)
Fixpoint join_sep (comps : list string) : string :=
  match comps with
  | [] => ""
  | [c] => c
  | c :: cs => c +:+ "/" +:+ join_sep cs
  end.

(** The loop of [os.path.normpath] over the components; [new_comps] is
    kept reversed. *)
Definition norm_step (initial_slashes : bool) (new_comps : list string)
    (comp : string) : list string :=
  if bool_decide (comp = "") || bool_decide (comp = ".") then new_comps
  else if negb (bool_decide (comp = ".."))
          || (negb initial_slashes && bool_decide (new_comps = []))
          || match new_comps with
             | last :: _ => bool_decide (last = "..")
             | [] => false
             end
  then comp :: new_comps
  else tail new_comps.

(** [os.path.normpath(path)] *)
Definition normpath (p : string) : string :=
  if bool_decide (p = "") then "."
  else
    let initial := PyStr.startswith PyStr.sep p in
    let two := initial && String.prefix "//" p && negb (String.prefix "///" p) in
    let comps := list.reverse (foldl (norm_step initial) [] (split_sep p)) in
    let q := (if two then "//" else if initial then "/" else "") +:+ join_sep comps in
    if bool_decide (q = "") then "." else q.

(** [os.path.abspath(path)], the process standing in [cwd]. *)
Definition abspath (cwd p : string) : string :=
  normpath (if PyStr.startswith PyStr.sep p then p else posixpath.join cwd p).

(** [Root.navigate_to] *)
Definition navigate_to (cwd p : string) (st : Root) : Root :=
  let p := abspath cwd p in
  if negb (os.exists_ (disk st) p) then _toast ("Path not found: " +:+ p) st
  else reload (set_selection ∅ (set_current_path p st)).

(** [Root.go_up] *)
Definition go_up (cwd : string) (st : Root) : Root :=
  navigate_to cwd (posixpath.dirname (current_path st)) st.

(** [Root.on_item_open]; what [open_with_android] does with a file is
    the platform's business and comes as [viewer]. An index outside
    [rv.data] raises [IndexError] out of the method ([None]). *)
Definition on_item_open (viewer : string → Root → Root) (cwd : string)
    (index : nat) (st : Root) : option Root :=
  match rv_data st !! index with
  | None => None
  | Some item =>
      Some (if row_is_dir item then navigate_to cwd (row_path item) st
            else viewer (row_path item) st)
  end.

(** [Root.toggle_hidden] *)
Definition toggle_hidden (st : Root) : Root :=
  reload (set_show_hidden (negb (show_hidden st)) st).

(** [Root.set_sort] *)
Definition set_sort (key : string) (st : Root) : Root :=
  reload (if bool_decide (sort_key st = key)
          then set_sort_desc (negb (sort_desc st)) st
          else set_sort_desc false (set_sort_key key st)).

(** [Root.do_search]: the query is stored at once; the reload runs when
    the clock fires the scheduled callback. *)
Definition do_search (text : string) (st : Root) : Root :=
  set_search_query text st.

Definition do_search_fired (st : Root) : Root := reload st.

(** A text made of white space only. *)
Fixpoint isblank (s : string) : bool :=
  match s with
  | EmptyString => true
  | String a r => PyStr.isspace a && isblank r
  end.

(** [/d] with a hidden file, a sub-directory and mixed-case names. *)
Definition disk_h : FS :=
  mk_disk [("/", Dir 1); ("/d", Dir 2); ("/d/.git", Dir 3);
           ("/d/.env", plain 5 4); ("/d/Notes.TXT", plain 40 5);
           ("/d/notes2.txt", plain 30 6); ("/d/img.png", plain 30 7);
           ("/d/sub", Dir 8); ("/d/sub/deep.txt", plain 9 9);
           ("/d/ghost", unreadable)] ["/d/img.png"].

(** [/d] of [disk_h] under the query " NOTES ", by size, descending. *)
Definition st_search : Root :=
  mkRoot "/d" false " NOTES " "size" true "Ready" ∅ [] [] disk_h [] [].

(** Componentwise sum of two (files, bytes) pairs. *)
Definition padd (a b : Z * Z) : Z * Z := (fst a + fst b, snd a + snd b).

(** What [props] adds to the byte total for the path [p]: its size, or
    nothing when [getsize] raises. *)
Definition stat_size (fs : FS) (p : string) : Z := add_size fs 0 p.

Definition Zsum (l : list Z) : Z := foldr Z.add 0 l.

(** [a <= b] on the key tuples: the first components decide, equal
    ones leave it to the second. *)
Definition key_le {X : Type} (le : X → X → Prop) (a b : bool * X) : Prop :=
  (fst a = false ∧ fst b = true) ∨ (fst a = fst b ∧ le (snd a) (snd b)).

(** The order the chosen sort key puts on the entries. *)
Definition item_le (sort_key : string) (a b : FMItem.t) : Prop :=
  if bool_decide (sort_key = "name")
  then key_le String.le (name_key a) (name_key b)
  else if bool_decide (sort_key = "size")
  then key_le Z.le (size_key a) (size_key b)
  else key_le Z.le (date_key a) (date_key b).

(** The copy [paste_here] may issue for the staged path [src]: a
    [copytree] or [copy2] of [src] itself, to the joined destination or
    to that destination with a counter before the extension. *)
Definition copy_call_of (dest_dir src : string) (c : call) : Prop :=
  let dest := posixpath.join dest_dir (posixpath.basename src) in
  ∃ d, (c = CallCopytree src d ∨ c = CallCopy2 src d)
       ∧ (d = dest
          ∨ ∃ k, (1 ≤ k)%nat
                 ∧ d = candidate (fst (posixpath.splitext dest))
                                 (snd (posixpath.splitext dest)) k).

(** What a logged copy does to the disk. *)
Definition run_copy (fs : FS) (c : call) : FS :=
  match c with
  | CallCopytree src dst => fst (shutil.copytree fs src dst)
  | CallCopy2 src dst => fst (shutil.copy2 fs src dst)
  | _ => fs
  end.

(** * Properties *)

(** ** The path primitives on sample inputs *)

Example split_ex : posixpath.split "/tmp/a/b" = ("/tmp/a", "b")
  /\ posixpath.split "/x" = ("/", "x")
  /\ posixpath.split "/tmp//a" = ("/tmp", "a")
  /\ posixpath.split "abc" = ("", "abc")
  /\ posixpath.split "/tmp/a/" = ("/tmp/a", "").
Proof. repeat split; reflexivity. Qed.

Example splitext_ex : posixpath.splitext "a.txt" = ("a", ".txt")
  /\ posixpath.splitext "/d/.bashrc" = ("/d/.bashrc", "")
  /\ posixpath.splitext "/d.e/f" = ("/d.e/f", "")
  /\ posixpath.splitext "..a.b" = ("..a", ".b")
  /\ posixpath.splitext "/d/a.tar.gz" = ("/d/a.tar", ".gz")
  /\ posixpath.splitext "a." = ("a", ".").
Proof. repeat split; vm_compute; reflexivity. Qed.

Example misc_ex : posixpath.join "/tmp" "x" = "/tmp/x"
  /\ posixpath.join "/" "x" = "/x"
  /\ posixpath.join "/tmp" "/x" = "/x"
  /\ posixpath.relpath "/a/d/s/f" "/a" = "d/s/f"
  /\ PyStr.of_nat 12 = "12"
  /\ PyStr.strip "  aB " = "aB"
  /\ PyStr.lower "aB.Z" = "ab.z"
  /\ PyStr.contains "b." "aB.Z" = false
  /\ PyStr.contains "B." "aB.Z" = true
  /\ PyStr.endswith_str ".zip" "a.zip" = true.
Proof. repeat split; vm_compute; reflexivity. Qed.

(** ** What [reload] leaves alone *)

Lemma reload_selection st : selection (reload st) = selection st.
Proof. unfold reload. by destruct (list_dir _ _ _). Qed.

Lemma reload_disk st : disk (reload st) = disk st.
Proof. unfold reload. by destruct (list_dir _ _ _). Qed.

Lemma reload_clipboard st : clipboard (reload st) = clipboard st.
Proof. unfold reload. by destruct (list_dir _ _ _). Qed.

Lemma reload_calls st : calls (reload st) = calls st.
Proof. unfold reload. by destruct (list_dir _ _ _). Qed.

Lemma reload_rows st items :
  list_dir (disk st) (current_path st) (show_hidden st) = Ok items →
  rv_data (reload st) =
    map (make_row (selection st))
        (pipeline (search_query st) (sort_key st) (sort_desc st) items).
Proof. unfold reload. by intros ->. Qed.

(** ** Selection: toggling twice *)

Lemma toggle_toggle (p : string) (sel : gset string) :
  toggle p (toggle p sel) = sel.
Proof.
  unfold toggle. destruct (decide (p ∈ sel)) as [Hin|Hout].
  - rewrite decide_False by set_solver.
    apply set_eq. intros x. destruct (decide (x = p)); set_solver.
  - rewrite decide_True by set_solver. set_solver.
Qed.

Lemma toggle_flips (p : string) (sel : gset string) :
  p ∈ toggle p sel ↔ p ∉ sel.
Proof. unfold toggle. destruct (decide (p ∈ sel)); set_solver. Qed.

Lemma toggle_select_at st i p :
  row_path <$> rv_data st !! i = Some p →
  selection (toggle_select i st) = toggle p (selection st)
  ∧ disk (toggle_select i st) = disk st
  ∧ calls (toggle_select i st) = calls st.
Proof.
  unfold toggle_select. destruct (rv_data st !! i) as [row|]; [|done].
  intros [= <-]. cbn. by rewrite reload_selection, reload_disk, reload_calls.
Qed.

(** C8. Toggling a path twice in a row gives back the selection it
    started from: [toggle] is its own inverse on every selection set,
    [toggle_select] performs it on the path of the tapped row, and
    two taps that hit the same path [p] restore the whole set (hence
    the membership of [p]) without touching the disk or issuing any
    file-system call. *)
Theorem toggle_select_twice (st : Root) (i j : nat) (p : string) :
  row_path <$> rv_data st !! i = Some p →
  row_path <$> rv_data (toggle_select i st) !! j = Some p →
  (∀ sel : gset string, toggle p (toggle p sel) = sel ∧ (p ∈ toggle p sel ↔ p ∉ sel))
  ∧ selection (toggle_select i st) = toggle p (selection st)
  ∧ selection (toggle_select j (toggle_select i st)) = selection st
  ∧ (p ∈ selection (toggle_select j (toggle_select i st)) ↔ p ∈ selection st)
  ∧ disk (toggle_select j (toggle_select i st)) = disk st
  ∧ calls (toggle_select j (toggle_select i st)) = calls st.
Proof.
  intros H1 H2.
  destruct (toggle_select_at _ _ _ H1) as (S1 & D1 & C1).
  destruct (toggle_select_at _ _ _ H2) as (S2 & D2 & C2).
  assert (selection (toggle_select j (toggle_select i st)) = selection st) as E
    by (rewrite S2, S1; apply toggle_toggle).
  split; [intros sel; split; [apply toggle_toggle|apply toggle_flips]|].
  rewrite E. repeat split; try done; congruence.
Qed.

Lemma toggle_select_twice_witness :
  let st := reload (mk_root "/tmp/x" "name" false [] [] disk_x) in
  selection (toggle_select 1 st) = {[ "/tmp/x/b.txt" ]}
  ∧ selection (toggle_select 1 (toggle_select 1 st)) = selection st.
Proof.
  intros st.
  assert (row_path <$> rv_data st !! 1%nat = Some "/tmp/x/b.txt") as H1
    by (vm_compute; reflexivity).
  assert (row_path <$> rv_data (toggle_select 1 st) !! 1%nat = Some "/tmp/x/b.txt")
    as H2 by (vm_compute; reflexivity).
  destruct (toggle_select_twice st 1 1 "/tmp/x/b.txt" H1 H2) as (_ & E1 & E2 & _).
  split; [|exact E2].
  rewrite E1. vm_compute. reflexivity.
Defined.

(** ** Batch delete: the selection afterwards *)

(** C9. Once the confirmed batch delete has run, the selection is
    empty, whatever happened to the individual paths: paths whose
    removal failed are dropped from it like the others. *)
Theorem delete_clears_selection (order : list string) (st : Root) :
  selection (delete_do order st) = ∅
  ∧ selection (delete_items order true st) = ∅
  ∧ (∀ p, p ∈ order → p ∉ selection (delete_do order st)).
Proof.
  assert (selection (delete_do order st) = ∅) as E
    by (unfold delete_do; by rewrite reload_selection).
  split; [done|]. split.
  - unfold delete_items. case_bool_decide as Hsel; simpl; [|done].
    by unfold _toast, open_popup.
  - intros p _. rewrite E. set_solver.
Qed.

(** A path that could not be deleted stays on the disk and is no longer
    selected. *)
Example delete_failed_unselected :
  let st := delete_do ["/w/A"; "/w/B"; "/w/C"]
              (mk_root "/w" "name" false ["/w/A"; "/w/B"; "/w/C"] [] disk_w) in
  os.exists_ (disk st) "/w/B" = true ∧ "/w/B" ∉ selection st.
Proof. split; [vm_compute; reflexivity|]. vm_compute. intros H. inversion H. Qed.

(** ** Rename: the selection afterwards *)

(** C10. With exactly [src] selected and a non-empty name entered, a
    rename that succeeds replaces the selection by the singleton of
    [join (dirname src) new_name]; a rename that raises leaves the
    selection as it was and shows the error. *)
Theorem rename_item_selection (st : Root) (src text : string) :
  selection st = {[ src ]} →
  PyStr.strip text ≠ "" →
  let dest := posixpath.join (posixpath.dirname src) (PyStr.strip text) in
  let st' := rename_item (Some text) st in
  match snd (os.rename (disk st) src dest) with
  | None => selection st' = {[ dest ]}
  | Some ex => selection st' = selection st
               ∧ popups st' = popups st ++ [("", str_exn ex)]
  end.
Proof.
  intros Hsel Hname dest st'. subst st'. unfold rename_item.
  rewrite Hsel, elements_singleton. unfold InputPopup, rename_ok.
  rewrite bool_decide_eq_false_2 by done.
  fold dest. unfold syscall. cbn.
  destruct (os.rename (disk st) src dest) as [fs' [ex|]]; cbn.
  - by rewrite Hsel.
  - by rewrite reload_selection.
Qed.

Lemma rename_item_selection_witness :
  selection (rename_item (Some " q.txt ")
               (mk_root "/d" "name" false ["/d/a"] [] disk_d))
  = {[ "/d/q.txt" ]}.
Proof.
  assert (selection (mk_root "/d" "name" false ["/d/a"] [] disk_d) = {[ "/d/a" ]})
    as Hsel by (vm_compute; reflexivity).
  assert (PyStr.strip " q.txt " ≠ "") as Hname by (vm_compute; discriminate).
  exact (rename_item_selection _ "/d/a" " q.txt " Hsel Hname).
Defined.

(** ** Listing: how the sort groups directories and files *)

Section SortGrouping.
Context {A : Type} (lt : A → A → bool) (g : A → bool).

(** [g] is the first component of the sort key: the order [lt]
    never puts a [true] before a [false], and always puts a [false]
    before a [true]. *)
Hypothesis lt_primary : ∀ a b, lt a b = true → g a = true → g b = true.
Hypothesis primary_lt : ∀ a b, g a = false → g b = true → lt a b = true.

Let below (a b : A) : Prop := g a = true → g b = true.

Lemma insert_sorted_elem x l y :
  y ∈ insert_sorted lt x l → y = x ∨ y ∈ l.
Proof.
  induction l as [|z l IH]; simpl.
  - intros ?%list_elem_of_singleton. by left.
  - destruct (lt z x).
    + intros [->|Hy]%elem_of_cons; [right; left|].
      destruct (IH Hy) as [->|?]; [by left|right; by right].
    + intros [->|Hy]%elem_of_cons; [by left|by right].
Qed.

Lemma insert_sorted_grouped x l :
  StronglySorted below l → StronglySorted below (insert_sorted lt x l).
Proof.
  induction 1 as [|z l Hl IH Hz]; simpl.
  - repeat constructor.
  - destruct (lt z x) eqn:Hlt.
    + constructor; [done|].
      apply Forall_forall. intros y [->|Hy]%insert_sorted_elem.
      * intros Hgz. by eapply lt_primary.
      * by eapply Forall_forall in Hz.
    + constructor; [by constructor|].
      assert (below x z) as Hxz.
      { intros Hgx. destruct (g z) eqn:Hgz; [done|].
        by rewrite (primary_lt z x Hgz Hgx) in Hlt. }
      constructor; [done|].
      eapply Forall_impl; [exact Hz|].
      intros y Hzy Hgx. by apply Hzy, Hxz.
Qed.

Lemma stable_sort_grouped l : StronglySorted below (stable_sort lt l).
Proof.
  induction l as [|x l IH]; simpl; [constructor|].
  by apply insert_sorted_grouped.
Qed.

Lemma StronglySorted_reverse_flip (R : A → A → Prop) l :
  StronglySorted R l → StronglySorted (flip R) (reverse l).
Proof.
  induction 1 as [|x l Hl IH Hx]; [constructor|].
  rewrite reverse_cons.
  apply StronglySorted_app_2; [|done|repeat constructor].
  intros y z Hy ->%list_elem_of_singleton.
  rewrite elem_of_reverse in Hy.
  unfold flip. rewrite Forall_forall in Hx. by apply Hx.
Qed.

(** Ascending, the [false] keys come first; with [reverse=True], the
    [true] keys do. *)
Lemma list_sort_grouped (reverse : bool) l :
  StronglySorted (if reverse then flip below else below) (list_sort lt reverse l).
Proof.
  unfold list_sort. destruct reverse.
  - apply StronglySorted_reverse_flip, stable_sort_grouped.
  - apply stable_sort_grouped.
Qed.
End SortGrouping.

Lemma StronglySorted_lookup {A} (R : A → A → Prop) (l : list A) i j a b :
  StronglySorted R l → (i < j)%nat → l !! i = Some a → l !! j = Some b → R a b.
Proof.
  intros Hs. revert i j. induction Hs as [|x l Hl IH Hx]; intros i j Hij Hi Hj.
  - done.
  - destruct j as [|j]; [lia|]. destruct i as [|i]; simpl in *.
    + injection Hi as <-. eapply Forall_forall in Hx; [done|].
      by eapply list_elem_of_lookup_2.
    + eapply (IH i j); [lia|done..].
Qed.

Lemma StronglySorted_mono {A} (R1 R2 : A → A → Prop) (l : list A) :
  (∀ a b, R1 a b → R2 a b) → StronglySorted R1 l → StronglySorted R2 l.
Proof.
  intros HR. induction 1 as [|x l Hl IH Hx]; constructor; [done|].
  eapply Forall_impl; [exact Hx|]. intros y. apply HR.
Qed.

Lemma tuple_lt_primary {X} (eqb ltb : X → X → bool) (a b : bool * X) :
  tuple_lt eqb ltb a b = true → fst a = true → fst b = true.
Proof.
  unfold tuple_lt. destruct a as [[] ?], b as [[] ?]; simpl; try done.
Qed.

Lemma primary_tuple_lt {X} (eqb ltb : X → X → bool) (a b : bool * X) :
  fst a = false → fst b = true → tuple_lt eqb ltb a b = true.
Proof. unfold tuple_lt. destruct a, b; simpl. by intros -> ->. Qed.

(** The sort of [reload] puts the directories first when ascending and
    last when descending. *)
Lemma sort_items_grouped (key : string) (desc : bool) (items : list FMItem.t) :
  StronglySorted
    (λ a b, if desc return Prop
            then FMItem.is_dir a = true → FMItem.is_dir b = true
            else FMItem.is_dir b = true → FMItem.is_dir a = true)
    (sort_items key desc items).
Proof.
  assert (∀ lt : FMItem.t → FMItem.t → bool,
    (∀ a b, lt a b = true → negb (FMItem.is_dir a) = true → negb (FMItem.is_dir b) = true) →
    (∀ a b, negb (FMItem.is_dir a) = false → negb (FMItem.is_dir b) = true → lt a b = true) →
    StronglySorted
      (λ a b, if desc return Prop
              then FMItem.is_dir a = true → FMItem.is_dir b = true
              else FMItem.is_dir b = true → FMItem.is_dir a = true)
      (list_sort lt desc items)) as Hgen.
  { intros lt H1 H2.
    eapply StronglySorted_mono;
      [|exact (list_sort_grouped lt (λ i, negb (FMItem.is_dir i)) H1 H2 desc items)].
    intros a b. destruct desc; unfold flip; simpl;
      destruct (FMItem.is_dir a), (FMItem.is_dir b); simpl; tauto. }
  unfold sort_items. repeat case_bool_decide; apply Hgen; intros a b.
  - apply (tuple_lt_primary _ _ (name_key a) (name_key b)).
  - apply (primary_tuple_lt _ _ (name_key a) (name_key b)).
  - apply (tuple_lt_primary _ _ (size_key a) (size_key b)).
  - apply (primary_tuple_lt _ _ (size_key a) (size_key b)).
  - apply (tuple_lt_primary _ _ (date_key a) (date_key b)).
  - apply (primary_tuple_lt _ _ (date_key a) (date_key b)).
Qed.

(** C1 fails in the descending direction: listing [/tmp/x] by name,
    descending, puts the file [b.txt] before the directory [A]. *)
Lemma descending_puts_files_first :
  let st := reload (mk_root "/tmp/x" "name" true [] [] disk_x) in
  map row_name (rv_data st) = ["b.txt"; "A"] ∧ ¬ dirs_first (rv_data st).
Proof.
  split; [vm_compute; reflexivity|].
  intros H.
  specialize (H 0%nat 1%nat (mkRow "b.txt" false false "/tmp/x/b.txt")
                (mkRow "A" true false "/tmp/x/A")).
  assert (false = true) as Habs; [|discriminate Habs].
  apply H; [lia|vm_compute; reflexivity..].
Qed.

(** C1, as the code has it. Whenever the current directory can be
    listed, under every sort key: with the descending flag off every
    directory row precedes every non-directory row; with the flag on
    the whole composite order is reversed, grouping included, so every
    non-directory row precedes every directory row. *)
Theorem reload_grouping (st : Root) (items : list FMItem.t) :
  list_dir (disk st) (current_path st) (show_hidden st) = Ok items →
  if sort_desc st then files_first (rv_data (reload st))
  else dirs_first (rv_data (reload st)).
Proof.
  intros Hls. rewrite (reload_rows st items Hls).
  pose proof (sort_items_grouped (sort_key st) (sort_desc st)
    (if negb (bool_decide (PyStr.strip (PyStr.lower (search_query st)) = ""))
     then filter (λ i, PyStr.contains (PyStr.strip (PyStr.lower (search_query st)))
                         (PyStr.lower (FMItem.name i)) = true) items
     else items)) as Hs.
  unfold pipeline.
  destruct (sort_desc st); intros i j a b Hij Ha Hb;
    rewrite list_lookup_fmap in Ha, Hb;
    destruct (_ !! i) as [x|] eqn:Hx; [|done| |done];
    destruct (_ !! j) as [y|] eqn:Hy; [|done| |done];
    injection Ha as <-; injection Hb as <-; simpl;
    exact (StronglySorted_lookup _ _ i j x y Hs Hij Hx Hy).
Qed.

Lemma reload_grouping_witness :
  dirs_first (rv_data (reload (mk_root "/tmp/x" "size" false [] [] disk_x)))
  ∧ files_first (rv_data (reload (mk_root "/tmp/x" "date" true [] [] disk_x))).
Proof.
  split.
  - refine (reload_grouping (mk_root "/tmp/x" "size" false [] [] disk_x) _ _).
    vm_compute. reflexivity.
  - refine (reload_grouping (mk_root "/tmp/x" "date" true [] [] disk_x) _ _).
    vm_compute. reflexivity.
Defined.

(** ** Batch move *)

Lemma move_step_clipboard dest_dir st src :
  clipboard (move_step dest_dir st src) = clipboard st.
Proof.
  unfold move_step, syscall.
  by destruct (shutil.move _ _ _) as [fs' [ex|]].
Qed.

Lemma move_step_calls dest_dir st src :
  calls (move_step dest_dir st src) = calls st ++ [move_call dest_dir src].
Proof.
  unfold move_step, syscall.
  by destruct (shutil.move _ _ _) as [fs' [ex|]].
Qed.

Lemma move_loop_clipboard dest_dir batch st :
  clipboard (move_loop dest_dir batch st) = clipboard st.
Proof.
  unfold move_loop. revert st.
  induction batch as [|src batch IH]; intros st; simpl; [done|].
  by rewrite IH, move_step_clipboard.
Qed.

Lemma move_loop_calls dest_dir batch st :
  calls (move_loop dest_dir batch st) = calls st ++ map (move_call dest_dir) batch.
Proof.
  unfold move_loop. revert st.
  induction batch as [|src batch IH]; intros st; simpl.
  - by rewrite app_nil_r.
  - by rewrite IH, move_step_calls, <- app_assoc.
Qed.

Lemma move_loop_snoc dest_dir batch src st :
  move_loop dest_dir (batch ++ [src]) st
  = move_step dest_dir (move_loop dest_dir batch st) src.
Proof. unfold move_loop. by rewrite foldl_app. Qed.

(** C6. For every non-empty clipboard, [move_to_here] issues exactly
    one [shutil.move] per staged path, in order, each to
    [join dest_dir (basename src)] and never to a deduplicated name;
    an item is handled in the state the earlier items left, whether
    they failed or not, so the batch runs to its end; the clipboard is
    whole after every item of the batch and empty only at the end. *)
Theorem move_to_here_batch (st : Root) :
  clipboard st ≠ [] →
  let dest_dir := current_path st in
  calls (move_to_here st) = calls st ++ map (move_call dest_dir) (clipboard st)
  ∧ (∀ pre src post, clipboard st = pre ++ src :: post →
       move_loop dest_dir (pre ++ [src]) st
       = move_step dest_dir (move_loop dest_dir pre st) src
       ∧ clipboard (move_loop dest_dir (pre ++ [src]) st) = clipboard st)
  ∧ disk (move_to_here st) = disk (move_loop dest_dir (clipboard st) st)
  ∧ clipboard (move_to_here st) = [].
Proof.
  intros Hne dest_dir.
  assert (move_to_here st
          = reload (set_clipboard [] (move_loop dest_dir (clipboard st) st))) as ->.
  { unfold move_to_here. by destruct (clipboard st). }
  rewrite reload_calls, reload_disk, reload_clipboard.
  change (calls (set_clipboard [] ?s)) with (calls s).
  change (disk (set_clipboard [] ?s)) with (disk s).
  rewrite move_loop_calls.
  repeat split; try done.
  - apply move_loop_snoc.
  - by rewrite move_loop_clipboard.
Qed.

Lemma move_to_here_batch_witness :
  let st := mk_root "/t" "name" false [] ["/w/A"; "/w/B"; "/w/C"] disk_m in
  calls (move_to_here st)
  = [CallMove "/w/A" "/t/A"; CallMove "/w/B" "/t/B"; CallMove "/w/C" "/t/C"]
  ∧ clipboard (move_to_here st) = [].
Proof.
  intros st.
  assert (clipboard st ≠ []) as Hne by discriminate.
  destruct (move_to_here_batch st Hne) as (Hc & _ & _ & He).
  split; [|exact He].
  rewrite Hc. vm_compute. reflexivity.
Defined.

(** In that run the move of the locked [/w/B] fails, the move of [/w/C]
    after it still happens, and the existing [/t/A] is overwritten
    rather than sidestepped. *)
Example move_to_here_run :
  let st := move_to_here (mk_root "/t" "name" false [] ["/w/A"; "/w/B"; "/w/C"] disk_m) in
  nodes (disk st) !! "/t/A" = Some (plain 1 3)
  ∧ nodes (disk st) !! "/t/C" = Some (plain 3 5)
  ∧ nodes (disk st) !! "/w/B" = Some (plain 2 4)
  ∧ nodes (disk st) !! "/w/C" = None
  ∧ popups st = [("", "Move failed: B — [Errno 1] Operation not permitted: '/w/B'")].
Proof. repeat split; vm_compute; reflexivity. Qed.

(** ** Batch delete *)

(** Removing never creates a path, and a removal that succeeds leaves
    no node at the path. *)
Lemma remove_item_shrinks fs p fs' r :
  remove_item fs p = (fs', r) → nodes fs' ⊆ nodes fs.
Proof.
  unfold remove_item, shutil.rmtree, os.remove.
  destruct (os.isdir fs p).
  - destruct (nodes fs !! p) as [[?|?]|]; try (intros [= <- <-]; done).
    destruct (filter _ (os.inside fs p)); [|intros [= <- <-]; done].
    destruct (os.is_locked fs p); intros [= <- <-]; simpl.
    + apply map_filter_subseteq.
    + etrans; [apply delete_subseteq|apply map_filter_subseteq].
  - destruct (nodes fs !! p) as [[?|?]|]; try (intros [= <- <-]; done).
    destruct (os.is_locked fs p); intros [= <- <-]; simpl; [done|].
    apply delete_subseteq.
Qed.

Lemma remove_item_gone fs p fs' :
  remove_item fs p = (fs', None) → os.exists_ fs' p = false.
Proof.
  unfold remove_item, shutil.rmtree, os.remove, os.exists_.
  destruct (os.isdir fs p).
  - destruct (nodes fs !! p) as [[?|?]|]; try done.
    destruct (filter _ (os.inside fs p)); [|done].
    destruct (os.is_locked fs p); intros [= <-]; simpl.
    by rewrite lookup_delete_eq.
  - destruct (nodes fs !! p) as [[?|?]|]; try done.
    destruct (os.is_locked fs p); intros [= <-]; simpl.
    by rewrite lookup_delete_eq.
Qed.

Lemma exists_shrinks fs fs' k :
  nodes fs' ⊆ nodes fs → os.exists_ fs' k = false ∨ os.exists_ fs k = true.
Proof.
  intros Hsub. unfold os.exists_.
  destruct (nodes fs' !! k) as [n|] eqn:Hk; [right|by left].
  by rewrite (lookup_weaken _ _ _ _ Hk Hsub).
Qed.

Lemma gone_stays_gone fs fs' k :
  nodes fs' ⊆ nodes fs → os.exists_ fs k = false → os.exists_ fs' k = false.
Proof. intros Hsub Hk. destruct (exists_shrinks fs fs' k Hsub); congruence. Qed.

Lemma removes_all_shrinks fs ps fs' :
  removes_all fs ps fs' → nodes fs' ⊆ nodes fs.
Proof.
  induction 1 as [|fs p fs1 ps fs2 Hp _ IH]; [done|].
  etrans; [exact IH|]. by eapply remove_item_shrinks.
Qed.

Lemma removes_all_gone fs ps fs' p :
  removes_all fs ps fs' → p ∈ ps → os.exists_ fs' p = false.
Proof.
  induction 1 as [|fs q fs1 ps fs2 Hq Hps IH]; [by intros ?%elem_of_nil|].
  intros [->|Hp]%elem_of_cons; [|by apply IH].
  eapply gone_stays_gone; [by eapply removes_all_shrinks|].
  by eapply remove_item_gone.
Qed.

(** One turn of the loop, by the outcome of the removal. *)
Lemma delete_step_ok st p fs' :
  remove_item (disk st) p = (fs', None) →
  delete_step st p = set_disk fs' (log_call (delete_call (disk st) p) st).
Proof. unfold delete_step, syscall. by intros ->. Qed.

Lemma delete_step_failed st p fs' ex :
  remove_item (disk st) p = (fs', Some ex) →
  delete_step st p
  = _toast (snd (delete_failed p ex))
      (set_disk fs' (log_call (delete_call (disk st) p) st)).
Proof. unfold delete_step, syscall. by intros ->. Qed.

Lemma delete_loop_ok ps : ∀ st fs',
  removes_all (disk st) ps fs' →
  disk (delete_loop ps st) = fs' ∧ popups (delete_loop ps st) = popups st.
Proof.
  unfold delete_loop.
  induction ps as [|p ps IH]; intros st fs' Hall; inversion Hall; subst; [done|].
  simpl. erewrite delete_step_ok by done.
  match goal with |- context [foldl delete_step ?s ps] =>
    destruct (IH s fs') as [-> ->]; done end.
Qed.

(** Every path of the batch gets its removal call, in order, whatever
    the outcomes: the loop never stops early. *)
Lemma delete_loop_calls ps : ∀ st,
  ∃ cs, calls (delete_loop ps st) = calls st ++ cs
        ∧ Forall2 (λ c p, c = CallRmtree p ∨ c = CallRemove p) cs ps.
Proof.
  unfold delete_loop.
  induction ps as [|p ps IH]; intros st; simpl.
  - exists []. by rewrite app_nil_r.
  - destruct (IH (delete_step st p)) as (cs & -> & Hcs).
    exists (delete_call (disk st) p :: cs). split.
    + unfold delete_step, syscall.
      destruct (remove_item _ _) as [fs' [ex|]]; simpl; by rewrite <- app_assoc.
    + constructor; [|done].
      unfold delete_call. destruct (os.isdir _ _); auto.
Qed.

Lemma delete_loop_app ps qs st :
  delete_loop (ps ++ qs) st = delete_loop qs (delete_loop ps st).
Proof. unfold delete_loop. apply foldl_app. Qed.

(** Removing [p] leaves every path alone that is neither [p] nor
    inside [p]. *)
Lemma remove_item_frame fs p fs' r k :
  remove_item fs p = (fs', r) → k ≠ p → posixpath.under p k = false →
  nodes fs' !! k = nodes fs !! k.
Proof.
  intros Hrm Hk Hout.
  assert (filter (λ kv : string * node, posixpath.under p kv.1 = false) (nodes fs) !! k
          = nodes fs !! k) as Hfilter.
  { destruct (nodes fs !! k) as [n|] eqn:Hn.
    - by apply map_lookup_filter_Some_2.
    - apply map_lookup_filter_None_2. by left. }
  revert Hrm. unfold remove_item, shutil.rmtree, os.remove.
  destruct (os.isdir fs p).
  - destruct (nodes fs !! p) as [[?|?]|]; try (intros [= <- <-]; done).
    destruct (filter _ (os.inside fs p)); [|intros [= <- <-]; done].
    destruct (os.is_locked fs p); intros [= <- <-]; simpl; [done|].
    by rewrite lookup_delete_ne.
  - destruct (nodes fs !! p) as [[?|?]|]; try (intros [= <- <-]; done).
    destruct (os.is_locked fs p); intros [= <- <-]; simpl; [done|].
    by rewrite lookup_delete_ne.
Qed.

(** A removal that succeeds found a node at the path. *)
Lemma remove_item_ok_node fs p fs' :
  remove_item fs p = (fs', None) → ∃ n, nodes fs !! p = Some n.
Proof.
  unfold remove_item, shutil.rmtree, os.remove.
  destruct (os.isdir fs p); destruct (nodes fs !! p) as [n|]; try done; eauto.
Qed.

(** The removal of a directory takes everything inside with it. *)
Lemma remove_item_tree_gone fs p fs' k :
  remove_item fs p = (fs', None) → os.isdir fs p = true →
  posixpath.under p k = true → os.exists_ fs' k = false.
Proof.
  intros Hrm Hdir Hunder. revert Hrm.
  unfold remove_item, shutil.rmtree. rewrite Hdir.
  destruct (nodes fs !! p) as [[?|?]|]; try done.
  destruct (filter _ (os.inside fs p)); [|done].
  destruct (os.is_locked fs p); intros [= <-].
  assert (k ≠ p) as Hne.
  { intros ->. unfold posixpath.under in Hunder.
    by rewrite bool_decide_eq_true_2 in Hunder. }
  unfold os.exists_. simpl. rewrite lookup_delete_ne by done.
  rewrite map_lookup_filter_None_2; [done|].
  right. intros n _. simpl. by rewrite Hunder.
Qed.

(** On a disk that has only lost nodes, a path that is still there is
    a directory exactly when it was one. *)
Lemma isdir_shrunk fs fs0 p n :
  nodes fs ⊆ nodes fs0 → nodes fs !! p = Some n → os.isdir fs p = os.isdir fs0 p.
Proof.
  intros Hsub Hn. unfold os.isdir.
  by rewrite Hn, (lookup_weaken _ _ _ _ Hn Hsub).
Qed.

Lemma removes_all_trees_gone fs ps fs' fs0 p k :
  removes_all fs ps fs' → nodes fs ⊆ nodes fs0 →
  p ∈ ps → os.isdir fs0 p = true → posixpath.under p k = true →
  os.exists_ fs' k = false.
Proof.
  intros Hall. revert p.
  induction Hall as [|fs q fs1 ps fs2 Hq Hps IH]; intros p Hsub Hin Hdir Hunder;
    [by apply elem_of_nil in Hin|].
  pose proof (remove_item_shrinks _ _ _ _ Hq) as Hsub1.
  apply elem_of_cons in Hin as [->|Hin].
  - destruct (remove_item_ok_node _ _ _ Hq) as [n Hn].
    eapply gone_stays_gone; [by eapply removes_all_shrinks|].
    eapply remove_item_tree_gone; [exact Hq| |exact Hunder].
    by rewrite (isdir_shrunk _ _ _ _ Hsub Hn).
  - apply (IH p); [by etrans|done..].
Qed.

Lemma removes_all_frame fs ps fs' k :
  removes_all fs ps fs' →
  (∀ p, p ∈ ps → k ≠ p ∧ posixpath.under p k = false) →
  nodes fs' !! k = nodes fs !! k.
Proof.
  induction 1 as [|fs q fs1 ps fs2 Hq Hps IH]; intros Hout; [done|].
  rewrite IH by (intros p Hp; apply Hout; by right).
  destruct (Hout q) as [Hk Hu]; [by left|].
  by eapply remove_item_frame.
Qed.

(** The calls of a run of successful removals: [rmtree] for what was a
    directory, [remove] for the rest. *)
Lemma delete_loop_ok_calls ps fs0 : ∀ st fs',
  removes_all (disk st) ps fs' → nodes (disk st) ⊆ nodes fs0 →
  calls (delete_loop ps st) = calls st ++ map (delete_call fs0) ps.
Proof.
  unfold delete_loop.
  induction ps as [|p ps IH]; intros st fs' Hall Hsub; inversion Hall; subst.
  - by rewrite app_nil_r.
  - simpl. erewrite delete_step_ok by done.
    match goal with H : remove_item _ _ = _ |- _ =>
      destruct (remove_item_ok_node _ _ _ H) as [n Hn];
      pose proof (remove_item_shrinks _ _ _ _ H) as Hsub1 end.
    match goal with |- context [foldl delete_step ?s ps] =>
      rewrite (IH s fs') by (try done; cbn; by etrans) end.
    cbn. rewrite <- app_assoc. simpl. do 2 f_equal.
    unfold delete_call. by rewrite (isdir_shrunk _ _ _ _ Hsub Hn).
Qed.

(** C7. Let the selection be iterated in the order [pre ++ B :: post]
    where the removal of [B] raises and the removals of the other
    paths succeed at their turn (for a set {A, B, C}: any order of the
    three). Then the batch runs to its end. Every path other than [B]
    is gone from the disk afterwards; where it was a directory,
    everything inside it is gone with it (removed recursively), and
    where it was a file nothing else is: a path that is none of the
    batch and inside none of them keeps its node. The calls are, in
    order, one per path, [rmtree] for a directory and [remove] for
    anything else, the one for [B] among them. The loop reports
    exactly one failure, the one for [B]. *)
Theorem delete_isolates_failure (st : Root) (order pre post : list string)
    (B : string) (ex : exn) (d1 d2 d3 : FS) :
  iteration_of (selection st) order →
  order = pre ++ B :: post →
  removes_all (disk st) pre d1 →
  remove_item d1 B = (d2, Some ex) →
  removes_all d2 post d3 →
  disk (delete_do order st) = d3
  ∧ (∀ p, p ∈ pre ++ post → os.exists_ (disk (delete_do order st)) p = false)
  ∧ (∀ p k, p ∈ pre ++ post → os.isdir (disk st) p = true →
       posixpath.under p k = true →
       os.exists_ (disk (delete_do order st)) k = false)
  ∧ (∀ k, (∀ p, p ∈ order → k ≠ p ∧ posixpath.under p k = false) →
       nodes (disk (delete_do order st)) !! k = nodes (disk st) !! k)
  ∧ popups (delete_loop order st) = popups st ++ [delete_failed B ex]
  ∧ calls (delete_do order st)
    = calls st ++ map (delete_call (disk st)) pre
        ++ delete_call d1 B :: map (delete_call (disk st)) post.
Proof.
  intros _ -> Hpre HB Hpost.
  destruct (delete_loop_ok pre st d1 Hpre) as [Dpre Ppre].
  pose proof (removes_all_shrinks _ _ _ Hpre) as Sub1.
  pose proof (remove_item_shrinks _ _ _ _ HB) as Sub2.
  pose proof (removes_all_shrinks _ _ _ Hpost) as Sub3.
  assert (nodes d2 ⊆ nodes (disk st)) as Sub12 by (by etrans).
  assert (disk (delete_loop (pre ++ B :: post) st) = d3
          ∧ popups (delete_loop (pre ++ B :: post) st)
            = popups st ++ [delete_failed B ex]
          ∧ calls (delete_loop (pre ++ B :: post) st)
            = calls st ++ map (delete_call (disk st)) pre
                ++ delete_call d1 B :: map (delete_call (disk st)) post)
    as (Hd & Hp & Hc).
  { rewrite delete_loop_app.
    change (delete_loop (B :: post) ?s) with (delete_loop post (delete_step s B)).
    pose proof (delete_loop_ok_calls pre (disk st) st d1 Hpre ltac:(done)) as Cpre.
    rewrite <- Dpre in HB. rewrite (delete_step_failed _ _ _ _ HB).
    match goal with |- context [delete_loop post ?s] =>
      destruct (delete_loop_ok post s d3 Hpost) as [-> ->];
      rewrite (delete_loop_ok_calls post (disk st) s d3 Hpost Sub12) end.
    split; [done|]. split; [simpl; by rewrite Ppre|].
    cbn [calls _toast open_popup set_disk log_call]. rewrite Cpre, Dpre.
    by rewrite <- !app_assoc. }
  assert (disk (delete_do (pre ++ B :: post) st) = d3) as Hdo.
  { unfold delete_do. by rewrite reload_disk. }
  split; [done|]. rewrite Hdo.
  split; [|split; [|split; [|split; [done|]]]].
  - intros p [Hp'|Hp']%elem_of_app.
    + eapply gone_stays_gone; [exact Sub3|].
      eapply gone_stays_gone; [exact Sub2|].
      by eapply removes_all_gone.
    + by eapply removes_all_gone.
  - intros p k [Hp'|Hp']%elem_of_app Hdir Hunder.
    + eapply gone_stays_gone; [exact Sub3|].
      eapply gone_stays_gone; [exact Sub2|].
      by eapply (removes_all_trees_gone _ _ _ (disk st) p k Hpre).
    + by eapply (removes_all_trees_gone _ _ _ (disk st) p k Hpost).
  - intros k Hout.
    rewrite (removes_all_frame _ _ _ _ Hpost)
      by (intros p Hp'; apply Hout; apply elem_of_app; right; by right).
    destruct (Hout B) as [HkB HuB]; [apply elem_of_app; right; by left|].
    rewrite (remove_item_frame _ _ _ _ _ HB HkB HuB).
    apply (removes_all_frame _ _ _ _ Hpre).
    intros p Hp'. apply Hout. apply elem_of_app. by left.
  - unfold delete_do. rewrite reload_calls.
    change (calls (set_selection ∅ ?s)) with (calls s). exact Hc.
Qed.

(** The batch of the witness: the directory [/d/sub] with a file in it,
    the locked [/d/img.png] and the file [/d/notes2.txt]. *)
Lemma delete_isolates_failure_witness :
  let st := mk_root "/d" "name" false ["/d/sub"; "/d/img.png"; "/d/notes2.txt"] []
              disk_h in
  let order := ["/d/sub"; "/d/img.png"; "/d/notes2.txt"] in
  os.exists_ (disk (delete_do order st)) "/d/sub" = false
  ∧ os.exists_ (disk (delete_do order st)) "/d/sub/deep.txt" = false
  ∧ os.exists_ (disk (delete_do order st)) "/d/notes2.txt" = false
  ∧ nodes (disk (delete_do order st)) !! "/d/Notes.TXT" = Some (plain 40 5)
  ∧ popups (delete_loop order st)
    = popups st ++ [delete_failed "/d/img.png" (PermissionError "/d/img.png")]
  ∧ calls (delete_do order st)
    = [CallRmtree "/d/sub"; CallRemove "/d/img.png"; CallRemove "/d/notes2.txt"].
Proof.
  intros st order.
  pose (d1 := fst (remove_item (disk st) "/d/sub")).
  pose (d3 := fst (remove_item d1 "/d/notes2.txt")).
  assert (iteration_of (selection st) order) as Hit.
  { unfold iteration_of. apply (bool_decide_unpack _). vm_compute. exact I. }
  assert (removes_all (disk st) ["/d/sub"] d1) as Hpre.
  { apply (removes_cons _ _ d1); [vm_compute; reflexivity|apply removes_nil]. }
  assert (remove_item d1 "/d/img.png" = (d1, Some (PermissionError "/d/img.png"))) as HB.
  { vm_compute. reflexivity. }
  assert (removes_all d1 ["/d/notes2.txt"] d3) as Hpost.
  { apply (removes_cons _ _ d3); [vm_compute; reflexivity|apply removes_nil]. }
  destruct (delete_isolates_failure st order ["/d/sub"] ["/d/notes2.txt"] "/d/img.png"
              (PermissionError "/d/img.png") d1 d1 d3 Hit eq_refl Hpre HB Hpost)
    as (_ & Hgone & Htree & Hframe & Hpop & Hcalls).
  split; [apply Hgone; by left|].
  split; [apply (Htree "/d/sub"); [by left|vm_compute; reflexivity..]|].
  split; [apply Hgone; right; by left|].
  split; [|split; [exact Hpop|rewrite Hcalls; vm_compute; reflexivity]].
  rewrite Hframe; [vm_compute; reflexivity|].
  intros p Hp.
  repeat (apply elem_of_cons in Hp as [->|Hp];
          [split; [discriminate|vm_compute; reflexivity]|]).
  destruct (not_elem_of_nil _ Hp).
Defined.

(** ** Collision resolution *)

Lemma string_app_length (s t : string) :
  String.length (s +:+ t) = (String.length s + String.length t)%nat.
Proof. induction s as [|c s IH]; simpl; [done|]. by rewrite IH. Qed.

Lemma string_app_inv_tail (s1 s2 t : string) :
  s1 +:+ t = s2 +:+ t → s1 = s2.
Proof.
  revert s2. induction s1 as [|c s1 IH]; intros [|d s2] H.
  - done.
  - apply (f_equal String.length) in H.
    rewrite !string_app_length in H. simpl in H. lia.
  - apply (f_equal String.length) in H.
    rewrite !string_app_length in H. simpl in H. lia.
  - injection H as -> H. f_equal. by apply IH.
Qed.

(** Different counters give different names. *)
Lemma candidate_inj base ext : Inj (=) (=) (candidate base ext).
Proof.
  intros i j H. unfold candidate, PyStr.of_nat in H.
  apply (inj (String.app base)) in H.
  apply (inj (String.app " (")) in H.
  apply string_app_inv_tail in H.
  by apply (inj pretty) in H.
Qed.

Lemma dedupe_loop_Some fs base ext fuel : ∀ i r,
  dedupe_loop fuel fs base ext i = Some r →
  ∃ k, (i ≤ k)%nat ∧ r = candidate base ext k
       ∧ os.exists_ fs (candidate base ext k) = false
       ∧ ∀ j, (i ≤ j < k)%nat → os.exists_ fs (candidate base ext j) = true.
Proof.
  induction fuel as [|fuel IH]; intros i r; simpl; [done|].
  destruct (os.exists_ fs (candidate base ext i)) eqn:Hi.
  - intros (k & Hk & -> & Hfree & Hbusy)%IH.
    exists k. repeat split; [lia|done|].
    intros j Hj. destruct (decide (j = i)) as [->|]; [done|].
    apply Hbusy. lia.
  - intros [= <-]. exists i. repeat split; [lia|done|]. intros j Hj. lia.
Qed.

Lemma dedupe_loop_None fs base ext fuel : ∀ i,
  dedupe_loop fuel fs base ext i = None →
  ∀ j, (i ≤ j < i + fuel)%nat → os.exists_ fs (candidate base ext j) = true.
Proof.
  induction fuel as [|fuel IH]; intros i; simpl; [intros _ j Hj; lia|].
  destruct (os.exists_ fs (candidate base ext i)) eqn:Hi; [|done].
  intros Hnone j Hj. destruct (decide (j = i)) as [->|]; [done|].
  apply (IH (S i) Hnone). lia.
Qed.

(** The disk cannot hold more probed names than it has paths. *)
Lemma candidates_run_out fs base ext :
  ¬ ∀ j, (1 ≤ j < 1 + S (size (nodes fs)))%nat →
         os.exists_ fs (candidate base ext j) = true.
Proof.
  intros Hall.
  set (l := candidate base ext <$> seq 1 (S (size (nodes fs)))).
  assert (NoDup l) as Hnd.
  { pose proof (candidate_inj base ext). apply (NoDup_fmap_2 _), NoDup_seq. }
  assert (list_to_set l ⊆ dom (nodes fs)) as Hsub.
  { intros x [j [-> Hj%elem_of_seq]]%elem_of_list_to_set%list_elem_of_fmap.
    apply elem_of_dom. specialize (Hall j ltac:(lia)).
    unfold os.exists_ in Hall. by destruct (nodes fs !! _). }
  apply subseteq_size in Hsub.
  rewrite size_list_to_set, size_dom in Hsub by done.
  unfold l in Hsub. rewrite length_fmap, length_seq in Hsub. lia.
Qed.

(** C4. [resolve] always returns, and returns a path that does not
    exist: the candidate itself when it does not exist; otherwise the
    name with suffix [" (k)"] before the extension for the first
    counter [k ≥ 1] whose name is unused. In particular an existing
    [a.txt] next to [a (1).txt] resolves to [a (2).txt] when that is
    free. *)
Theorem resolve_spec (fs : FS) (dest : string) :
  ∃ r, resolve fs dest = Some r
       ∧ os.exists_ fs r = false
       ∧ (os.exists_ fs dest = false → r = dest)
       ∧ (os.exists_ fs dest = true →
          ∃ k, (1 ≤ k)%nat
               ∧ r = candidate (fst (posixpath.splitext dest))
                               (snd (posixpath.splitext dest)) k
               ∧ ∀ j, (1 ≤ j < k)%nat →
                      os.exists_ fs (candidate (fst (posixpath.splitext dest))
                                               (snd (posixpath.splitext dest)) j) = true)
       ∧ (dest = "a.txt" → os.exists_ fs "a.txt" = true →
          os.exists_ fs "a (1).txt" = true → os.exists_ fs "a (2).txt" = false →
          r = "a (2).txt").
Proof.
  unfold resolve, _dedupe_name.
  destruct (posixpath.splitext dest) as [base ext] eqn:Hext. simpl.
  destruct (os.exists_ fs dest) eqn:Hdest.
  - destruct (dedupe_loop (S (size (nodes fs))) fs base ext 1) as [r|] eqn:Hloop.
    + destruct (dedupe_loop_Some _ _ _ _ _ _ Hloop) as (k & Hk & -> & Hfree & Hbusy).
      eexists. split; [done|]. split; [done|]. split; [done|]. split.
      * intros _. by exists k.
      * intros -> _ H1 H2. vm_compute in Hext. injection Hext as <- <-.
        assert (candidate "a" ".txt" 1 = "a (1).txt") as E1 by (vm_compute; reflexivity).
        assert (candidate "a" ".txt" 2 = "a (2).txt") as E2 by (vm_compute; reflexivity).
        destruct (decide (k = 1%nat)) as [->|]; [congruence|].
        destruct (decide (k = 2%nat)) as [->|]; [done|].
        specialize (Hbusy 2%nat ltac:(lia)). congruence.
    + exfalso. apply (candidates_run_out fs base ext).
      by apply dedupe_loop_None.
  - exists dest. repeat split; try done. congruence.
Qed.

Lemma resolve_spec_witness :
  resolve disk_a "a.txt" = Some "a (2).txt"
  ∧ resolve disk_a "b.txt" = Some "b.txt".
Proof.
  split.
  - destruct (resolve_spec disk_a "a.txt") as (r & -> & _ & _ & _ & Hex).
    f_equal. apply Hex; vm_compute; reflexivity.
  - destruct (resolve_spec disk_a "b.txt") as (r & -> & _ & Hfree & _).
    f_equal. apply Hfree. vm_compute. reflexivity.
Defined.

(** ** Properties of a selection *)

Lemma add_size_comm fs t p q :
  add_size fs (add_size fs t p) q = add_size fs (add_size fs t q) p.
Proof.
  unfold add_size.
  destruct (os.getsize fs p), (os.getsize fs q); lia.
Qed.

Lemma foldl_add_size_perm fs root (l1 l2 : list string) :
  l1 ≡ₚ l2 → ∀ t,
  foldl (λ total_size f, add_size fs total_size (posixpath.join root f)) t l1
  = foldl (λ total_size f, add_size fs total_size (posixpath.join root f)) t l2.
Proof.
  induction 1 as [|x l1 l2 _ IH|x y l|l1 l2 l3 _ IH1 _ IH2]; intros t; simpl.
  - done.
  - apply IH.
  - by rewrite add_size_comm.
  - by rewrite IH1.
Qed.

(** C2 fails on the file count: for the directory [/d] with two
    readable files of 100 and 250 bytes and one unreadable file, the
    aggregation reports 3 files, not 2 (and 350 bytes). *)
Lemma props_counts_unreadable :
  props_totals disk_d ["/d"] = (3, 350)
  ∧ fst (props_totals disk_d ["/d"]) ≠ 2
  ∧ popups (props ["/d"] (mk_root "/" "name" false ["/d"] [] disk_d))
    = [("Properties",
        "Items: 1" +:+ newline +:+ "Files: 3" +:+ newline +:+ "Size: 350 bytes")].
Proof.
  split; [vm_compute; reflexivity|]. split; [|vm_compute; reflexivity].
  vm_compute. discriminate.
Qed.

(** C2, as the code has it. When the selection is one directory whose
    walk yields exactly three files, two of them stat-able with 100
    and 250 bytes and one on which [getsize] raises, the aggregation
    counts every listed file, stat-able or not (3 files), adds up the
    sizes of the stat-able ones (350 bytes), and opens nothing but the
    Properties popup: the unreadable file surfaces no error. *)
Theorem props_counts_listed_files (st : Root) (d a b c : string)
    (order files : list string) (ex : exn) :
  selection st = {[ d ]} →
  iteration_of (selection st) order →
  os.isdir (disk st) d = true →
  os_walk (disk st) d = [(d, [], files)] →
  files ≡ₚ [a; b; c] →
  os.getsize (disk st) (posixpath.join d a) = Ok 100 →
  os.getsize (disk st) (posixpath.join d b) = Ok 250 →
  os.getsize (disk st) (posixpath.join d c) = Raise ex →
  props_totals (disk st) order = (3, 350)
  ∧ popups (props order st)
    = popups st ++
      [("Properties",
        "Items: 1" +:+ newline +:+ "Files: 3" +:+ newline +:+ "Size: 350 bytes")]
  ∧ disk (props order st) = disk st.
Proof.
  intros Hsel Hit Hdir Hwalk Hperm Ha Hb Hc.
  unfold iteration_of in Hit. rewrite Hsel, elements_singleton in Hit.
  apply Permutation_singleton_r in Hit as ->.
  assert (props_totals (disk st) [d] = (3, 350)) as Htot.
  { unfold props_totals. simpl. unfold props_step. rewrite Hdir, Hwalk. simpl.
    rewrite (Permutation_length Hperm).
    rewrite (foldl_add_size_perm _ _ _ _ Hperm). simpl.
    unfold add_size. by rewrite Ha, Hb, Hc. }
  split; [done|].
  unfold props. rewrite bool_decide_eq_false_2 by (rewrite Hsel; set_solver).
  rewrite Htot, Hsel, size_singleton. done.
Qed.

Lemma props_counts_listed_files_witness :
  let st := mk_root "/" "name" false ["/d"] [] disk_d in
  props_totals (disk st) ["/d"] = (3, 350).
Proof.
  intros st.
  refine (proj1 (props_counts_listed_files st "/d" "a" "b" "c" ["/d"] ["c"; "a"; "b"]
                   (PermissionError "/d/c") _ _ _ _ _ _ _ _)).
  - vm_compute. reflexivity.
  - unfold iteration_of. apply (bool_decide_unpack _). vm_compute. exact I.
  - vm_compute. reflexivity.
  - vm_compute. reflexivity.
  - apply (bool_decide_unpack _). vm_compute. exact I.
  - vm_compute. reflexivity.
  - vm_compute. reflexivity.
  - vm_compute. reflexivity.
Defined.

(** ** Archive creation *)

(** C3 fails: zipping [/w/A], the locked [/w/B] and [/w/C] into
    [/w/out.zip] raises at [/w/B]; the archive, which did not exist
    before, is then on the disk with the one member written so far. *)
Lemma zip_leaves_partial_archive :
  let st := mk_root "/w" "name" false ["/w/A"; "/w/B"; "/w/C"] [] disk_w in
  let st' := zip_selection ["/w/A"; "/w/B"; "/w/C"] 120 (Some "out") st in
  os.exists_ (disk st) "/w/out.zip" = false
  ∧ popups st' = [("", "[Errno 1] Operation not permitted: '/w/B'")]
  ∧ os.exists_ (disk st') "/w/out.zip" = true
  ∧ nodes (disk st') !! "/w/out.zip"
    = Some (File (Some (mkStat 120 1000)) (Some ["A"])).
Proof. repeat split; vm_compute; reflexivity. Qed.

Lemma open_w_clock fs out_path fs1 r :
  zipfile.open_w fs out_path = (fs1, r) → clock fs1 = clock fs.
Proof.
  unfold zipfile.open_w.
  destruct (nodes fs !! out_path) as [[?|?]|];
    repeat (case_match; simplify_eq/=); by intros [= <- <-].
Qed.

(** C3, as the code has it. Archive creation is not all-or-nothing:
    once the output has been opened, a write that raises ends the
    loop, the container is closed with the members written so far and
    stays on the disk under the output path, and the error is shown
    as a toast. *)
Theorem zip_failure_keeps_archive (st : Root) (order : list string)
    (zbytes : Z) (name : string) (fs1 : FS) (members : list string) (ex : exn) :
  name ≠ "" →
  let out_path := posixpath.join (current_path st)
    (if PyStr.endswith_str ".zip" name then name else name +:+ ".zip") in
  zipfile.open_w (disk st) out_path = (fs1, None) →
  zip_write_all fs1 (flat_map (zip_jobs fs1) order) [] = (members, Some ex) →
  let st' := zip_ok order zbytes name st in
  nodes (disk st') !! out_path
    = Some (File (Some (mkStat zbytes (clock (disk st)))) (Some members))
  ∧ os.exists_ (disk st') out_path = true
  ∧ popups st' = popups st ++ [("", str_exn ex)].
Proof.
  intros Hname out_path Hopen Hwrite st'. subst st'.
  unfold zip_ok. rewrite bool_decide_eq_false_2 by done.
  fold out_path. unfold syscall. rewrite Hopen. cbn [disk set_disk log_call].
  rewrite Hwrite. cbn.
  unfold os.exists_. cbn. rewrite lookup_insert_eq.
  by rewrite (open_w_clock _ _ _ _ Hopen).
Qed.

Lemma zip_failure_keeps_archive_witness :
  let st := mk_root "/w" "name" false ["/w/A"; "/w/B"; "/w/C"] [] disk_w in
  os.exists_ (disk (zip_ok ["/w/A"; "/w/B"; "/w/C"] 120 "out" st)) "/w/out.zip" = true.
Proof.
  intros st.
  assert ("out" ≠ "") as Hname by discriminate.
  refine (proj1 (proj2 (zip_failure_keeps_archive st ["/w/A"; "/w/B"; "/w/C"] 120
                          "out" (fst (zipfile.open_w (disk st) "/w/out.zip")) ["A"]
                          (PermissionError "/w/B") Hname _ _))).
  - vm_compute. reflexivity.
  - vm_compute. reflexivity.
Defined.

(** ** Folder creation *)


Lemma rsplit_at_app c s :
  s = fst (PyStr.rsplit_at c s) +:+ snd (PyStr.rsplit_at c s).
Proof.
  induction s as [|a s IH]; simpl; [done|].
  destruct (PyStr.rsplit_at c s) as [h t]. simpl in IH.
  destruct (PyStr.has_char c s); simpl.
  - unfold String.app. simpl. by f_equal.
  - by case_bool_decide.
Qed.







Lemma exists_lookup_None fs p : os.exists_ fs p = false → nodes fs !! p = None.
Proof. unfold os.exists_. by destruct (nodes fs !! p). Qed.




(** * Further properties of the engine *)

Example normpath_ex :
  normpath "/a//b/./c/../d/" = "/a/b/d"
  ∧ normpath "/.." = "/" ∧ normpath "//x" = "//x" ∧ normpath "///x" = "/x"
  ∧ normpath "a/../.." = ".." ∧ normpath "./" = "."
  ∧ abspath "/home/u" "docs/../x" = "/home/u/x"
  ∧ split_sep "/a//b" = [""; "a"; ""; "b"].
Proof. repeat split; vm_compute; reflexivity. Qed.

(** ** What [reload] reads and writes *)

Lemma reload_cases st :
  (∃ items, list_dir (disk st) (current_path st) (show_hidden st) = Ok items
     ∧ reload st =
       set_status (PyStr.of_nat (length (pipeline (search_query st) (sort_key st)
                                           (sort_desc st) items)) +:+ " items")
         (set_rv_data (map (make_row (selection st))
                         (pipeline (search_query st) (sort_key st) (sort_desc st) items))
            st))
  ∨ (∃ ex, list_dir (disk st) (current_path st) (show_hidden st) = Raise ex
       ∧ reload st = _toast (str_exn ex) st).
Proof.
  unfold reload. destruct (list_dir _ _ _) as [items|ex]; [left|right]; eauto.
Qed.

Lemma reload_settings st :
  current_path (reload st) = current_path st
  ∧ show_hidden (reload st) = show_hidden st
  ∧ search_query (reload st) = search_query st
  ∧ sort_key (reload st) = sort_key st
  ∧ sort_desc (reload st) = sort_desc st.
Proof. unfold reload. by destruct (list_dir _ _ _). Qed.

Lemma reload_current_path st : current_path (reload st) = current_path st.
Proof. apply reload_settings. Qed.

Lemma reload_show_hidden st : show_hidden (reload st) = show_hidden st.
Proof. apply reload_settings. Qed.

Lemma reload_search_query st : search_query (reload st) = search_query st.
Proof. apply reload_settings. Qed.

Lemma reload_sort_key st : sort_key (reload st) = sort_key st.
Proof. apply reload_settings. Qed.

Lemma reload_sort_desc st : sort_desc (reload st) = sort_desc st.
Proof. apply reload_settings. Qed.

(** The rows after a reload: those of the listing, or the old ones
    when the directory cannot be listed. *)
Lemma reload_rows_eq st :
  rv_data (reload st) =
    match list_dir (disk st) (current_path st) (show_hidden st) with
    | Ok items =>
        map (make_row (selection st))
            (pipeline (search_query st) (sort_key st) (sort_desc st) items)
    | Raise _ => rv_data st
    end.
Proof. unfold reload. by destruct (list_dir _ _ _). Qed.

(** Two states that agree on what [reload] reads get the same rows,
    provided they had the same rows before (which matters when the
    directory cannot be listed). *)
Lemma reload_rows_ext s1 s2 :
  disk s1 = disk s2 → current_path s1 = current_path s2 →
  show_hidden s1 = show_hidden s2 → search_query s1 = search_query s2 →
  sort_key s1 = sort_key s2 → sort_desc s1 = sort_desc s2 →
  selection s1 = selection s2 → rv_data s1 = rv_data s2 →
  rv_data (reload s1) = rv_data (reload s2).
Proof.
  intros Hd Hc Hh Hq Hk Hs Hsel Hr. unfold reload.
  rewrite Hd, Hc, Hh, Hq, Hk, Hs, Hsel.
  by destruct (list_dir _ _ _).
Qed.

(** Reloading twice shows what reloading once shows. *)
Lemma reload_rows_idem st : rv_data (reload (reload st)) = rv_data (reload st).
Proof.
  destruct (reload_settings st) as (Hc & Hh & Hq & Hk & Hs).
  destruct (reload_cases st) as [(items & Hls & Hre)|(ex & Hls & Hre)].
  - unfold reload at 1. rewrite reload_disk, Hc, Hh, Hq, Hk, Hs, reload_selection, Hls.
    by rewrite Hre.
  - unfold reload at 1. rewrite reload_disk, Hc, Hh, Hls. by rewrite Hre.
Qed.

(** ** Navigation *)

(** X1. [navigate_to] resolves its argument with [abspath] and looks
    only at whether that path exists. If it does not, a "Path not
    found" toast is all that happens: current directory, selection,
    clipboard, rows and disk stay. If it does, the path becomes the
    current directory and the selection is emptied, while the
    clipboard and the disk are kept. *)
Theorem navigate_to_effect (cwd p : string) (st : Root) :
  let q := abspath cwd p in
  let st' := navigate_to cwd p st in
  clipboard st' = clipboard st ∧ disk st' = disk st ∧ calls st' = calls st
  ∧ if os.exists_ (disk st) q
    then current_path st' = q ∧ selection st' = ∅
    else current_path st' = current_path st ∧ selection st' = selection st
         ∧ rv_data st' = rv_data st
         ∧ popups st' = popups st ++ [("", "Path not found: " +:+ q)].
Proof.
  intros q st'. subst st'. unfold navigate_to. fold q.
  destruct (os.exists_ (disk st) q); simpl.
  - rewrite reload_clipboard, reload_disk, reload_calls, reload_selection.
    destruct (reload_settings (set_selection ∅ (set_current_path q st))) as (-> & _).
    done.
  - done.
Qed.

(** X2. Navigating to a path that exists but is a regular file is not
    refused: the file becomes the current "directory", the selection
    is emptied, and only then the listing fails, leaving the rows of
    the previous directory on screen under a NotADirectory toast. *)
Theorem navigate_to_file (cwd p : string) (st : Root)
    (s : option stat_result) (z : option (list string)) :
  nodes (disk st) !! abspath cwd p = Some (File s z) →
  let st' := navigate_to cwd p st in
  current_path st' = abspath cwd p
  ∧ selection st' = ∅
  ∧ rv_data st' = rv_data st
  ∧ popups st' = popups st ++ [("", str_exn (NotADirectoryError (abspath cwd p)))].
Proof.
  intros Hfile st'. subst st'. unfold navigate_to, os.exists_. rewrite Hfile. simpl.
  unfold reload, list_dir, os.scandir. cbn. rewrite Hfile. done.
Qed.

Lemma navigate_to_file_witness :
  let st := reload (mk_root "/d" "name" false ["/d/a"] [] disk_d) in
  current_path (navigate_to "/" "d/./a" st) = "/d/a"
  ∧ rv_data (navigate_to "/" "d/./a" st) = rv_data st.
Proof.
  intros st.
  assert (nodes (disk st) !! abspath "/" "d/./a" = Some (File (Some (mkStat 100 3)) None))
    as H by (vm_compute; reflexivity).
  destruct (navigate_to_file "/" "d/./a" st _ _ H) as (Hc & _ & Hr & _).
  split; [rewrite Hc; vm_compute; reflexivity|exact Hr].
Defined.

(** ** Sort and hidden-file switches *)

(** X3. [set_sort] with the key already in use flips the direction and
    keeps the key; with any other key it takes that key and always
    starts ascending. Nothing but the listing changes: selection,
    clipboard and disk are untouched. *)
Theorem set_sort_effect (key : string) (st : Root) :
  let st' := set_sort key st in
  sort_key st' = key
  ∧ sort_desc st' = (if bool_decide (sort_key st = key) then negb (sort_desc st) else false)
  ∧ selection st' = selection st ∧ clipboard st' = clipboard st
  ∧ disk st' = disk st ∧ current_path st' = current_path st.
Proof.
  intros st'. subst st'. unfold set_sort.
  rewrite reload_selection, reload_clipboard, reload_disk.
  match goal with |- context [reload ?s] =>
    destruct (reload_settings s) as (-> & _ & _ & -> & ->) end.
  case_bool_decide; simpl; repeat split; done.
Qed.

(** X4. Pressing the same sort key twice gives back the direction and
    shows exactly the rows a plain reload shows. *)
Theorem set_sort_twice (key : string) (st : Root) :
  sort_key st = key →
  sort_desc (set_sort key (set_sort key st)) = sort_desc st
  ∧ rv_data (set_sort key (set_sort key st)) = rv_data (reload st).
Proof.
  intros Hkey.
  assert (set_sort key st = reload (set_sort_desc (negb (sort_desc st)) st)) as E1
    by (unfold set_sort; by rewrite bool_decide_eq_true_2).
  assert (∀ s, sort_key s = key →
            set_sort key s = reload (set_sort_desc (negb (sort_desc s)) s)) as E
    by (intros s Hs; unfold set_sort; by rewrite bool_decide_eq_true_2).
  rewrite (E (set_sort key st)) by (rewrite E1, reload_sort_key; done).
  rewrite E1. split.
  - rewrite ?reload_sort_desc.
    cbn [sort_desc set_sort_desc]. rewrite ?reload_sort_desc.
    cbn [sort_desc set_sort_desc]. apply negb_involutive.
  - rewrite !reload_rows_eq.
    cbn [disk current_path show_hidden search_query sort_key sort_desc selection
         rv_data set_sort_desc].
    rewrite !reload_disk, !reload_current_path, !reload_show_hidden,
      !reload_search_query, !reload_sort_key, !reload_sort_desc, !reload_selection.
    cbn [disk current_path show_hidden search_query sort_key sort_desc selection
         rv_data set_sort_desc].
    rewrite negb_involutive, reload_rows_eq.
    cbn [disk current_path show_hidden search_query sort_key sort_desc selection
         rv_data set_sort_desc].
    by destruct (list_dir _ _ _).
Qed.

Lemma set_sort_twice_witness :
  let st := mk_root "/tmp/x" "name" false [] [] disk_x in
  rv_data (set_sort "name" (set_sort "name" st)) = rv_data (reload st).
Proof.
  intros st. exact (proj2 (set_sort_twice "name" st eq_refl)).
Defined.

(** ** Facts on the string primitives *)

Lemma app_cons (a : ascii) (r s : string) : String a r +:+ s = String a (r +:+ s).
Proof. reflexivity. Qed.

Lemma app_empty_l (s : string) : "" +:+ s = s.
Proof. reflexivity. Qed.

Lemma app_empty_r (s : string) : s +:+ "" = s.
Proof. induction s as [|a s IH]; [done|]. by rewrite app_cons, IH. Qed.

Lemma string_app_assoc (s t u : string) : (s +:+ t) +:+ u = s +:+ (t +:+ u).
Proof. induction s as [|a s IH]; [done|]. by rewrite !app_cons, IH. Qed.

Lemma has_char_app c s t :
  PyStr.has_char c (s +:+ t) = PyStr.has_char c s || PyStr.has_char c t.
Proof.
  induction s as [|a s IH]; [done|].
  rewrite app_cons. simpl. rewrite IH. by rewrite orb_assoc.
Qed.

Lemma endswith_has_char c s : PyStr.endswith c s = true → PyStr.has_char c s = true.
Proof.
  induction s as [|a s IH]; [done|]. simpl.
  destruct s as [|b s]; [intros ->; done|].
  intros H. rewrite (IH H). apply orb_true_r.
Qed.

Lemma rsplit_at_no_char c s :
  PyStr.has_char c s = false → PyStr.rsplit_at c s = ("", s).
Proof.
  induction s as [|a s IH]; [done|]. simpl.
  intros [Ha Hs]%orb_false_elim. rewrite (IH Hs), Hs, Ha. done.
Qed.

(** After a prefix that is empty or ends with the separator, a
    separator-free name is the last component. *)
Lemma rsplit_at_tail c s n :
  PyStr.has_char c n = false →
  s = "" ∨ PyStr.endswith c s = true →
  PyStr.rsplit_at c (s +:+ n) = (s, n).
Proof.
  intros Hn. induction s as [|a s IH].
  - intros _. by apply rsplit_at_no_char.
  - intros [?|Hend]; [done|]. rewrite app_cons. simpl.
    destruct s as [|b s].
    + simpl in Hend. rewrite app_empty_l, (rsplit_at_no_char _ _ Hn), Hn, Hend. done.
    + assert (PyStr.endswith c (String b s) = true) as Hend' by exact Hend.
      rewrite (IH (or_intror Hend')).
      rewrite has_char_app, (endswith_has_char _ _ Hend'). done.
Qed.

Lemma endswith_snoc c s : PyStr.endswith c (s +:+ String c "") = true.
Proof.
  induction s as [|a s IH]; [simpl; by rewrite bool_decide_eq_true_2|].
  rewrite app_cons. simpl. destruct (s +:+ String c "") eqn:E; [|done].
  by destruct s.
Qed.

(** [join] puts exactly one separator between a directory and a
    separator-free name. *)
Lemma join_with_sep p n :
  p ≠ "" → PyStr.has_char PyStr.sep n = false →
  posixpath.join p n = posixpath.with_sep p +:+ n.
Proof.
  intros Hp Hn. unfold posixpath.join, posixpath.with_sep.
  assert (PyStr.startswith PyStr.sep n = false) as ->.
  { destruct n as [|a n]; [done|]. simpl in *. by apply orb_false_elim in Hn as [-> _]. }
  rewrite bool_decide_eq_false_2 by done. simpl.
  destruct (PyStr.endswith PyStr.sep p); [done|].
  by rewrite string_app_assoc.
Qed.

Lemma with_sep_endswith p : PyStr.endswith PyStr.sep (posixpath.with_sep p) = true.
Proof.
  unfold posixpath.with_sep. destruct (PyStr.endswith PyStr.sep p) eqn:E; [done|].
  apply endswith_snoc.
Qed.

(** The last component of [join p n] is [n]. *)
Lemma basename_join p n :
  p ≠ "" → PyStr.has_char PyStr.sep n = false →
  posixpath.basename (posixpath.join p n) = n.
Proof.
  intros Hp Hn. rewrite (join_with_sep _ _ Hp Hn). unfold posixpath.basename.
  rewrite (rsplit_at_tail _ _ _ Hn); [done|].
  right. apply with_sep_endswith.
Qed.


Lemma prefix_split s k :
  String.prefix s k = true → k = s +:+ PyStr.sdrop (String.length s) k.
Proof.
  revert k. induction s as [|a s IH]; intros k; [done|].
  destruct k as [|b k]; [done|]. simpl.
  destruct (ascii_dec a b) as [->|]; [|done].
  intros H. rewrite app_cons. f_equal. by apply IH.
Qed.


(** ** What a listing holds *)

Lemma insert_sorted_perm {A} (lt : A → A → bool) x l :
  insert_sorted lt x l ≡ₚ x :: l.
Proof.
  induction l as [|y l IH]; simpl; [done|].
  destruct (lt y x); [|done]. rewrite IH. apply Permutation_swap.
Qed.

Lemma stable_sort_perm {A} (lt : A → A → bool) l : stable_sort lt l ≡ₚ l.
Proof.
  induction l as [|x l IH]; simpl; [done|].
  by rewrite insert_sorted_perm, IH.
Qed.

Lemma list_sort_perm {A} (lt : A → A → bool) (rev : bool) l :
  list_sort lt rev l ≡ₚ l.
Proof.
  unfold list_sort. destruct rev; [|apply stable_sort_perm].
  by rewrite reverse_Permutation, stable_sort_perm, reverse_Permutation.
Qed.

Lemma sort_items_perm key desc items : sort_items key desc items ≡ₚ items.
Proof. unfold sort_items. repeat case_bool_decide; apply list_sort_perm. Qed.

(** X5. When the directory can be listed, the rows are exactly the
    listed entries that pass the search, each of them once: a blank
    query (empty or white space only) keeps every entry, any other
    keeps the entries whose lower-cased name contains the lower-cased,
    stripped query; the sort key and the direction only reorder. *)
Theorem reload_shows_matches (st : Root) (items : list FMItem.t) :
  list_dir (disk st) (current_path st) (show_hidden st) = Ok items →
  let q := PyStr.strip (PyStr.lower (search_query st)) in
  rv_data (reload st) ≡ₚ
    map (make_row (selection st))
        (if bool_decide (q = "") then items
         else filter (λ i, PyStr.contains q (PyStr.lower (FMItem.name i)) = true) items).
Proof.
  intros Hls q. rewrite (reload_rows st items Hls).
  apply Permutation_map. unfold pipeline. fold q.
  rewrite sort_items_perm. by case_bool_decide.
Qed.

Lemma reload_shows_matches_witness :
  map row_name (rv_data (reload st_search)) ≡ₚ ["Notes.TXT"; "notes2.txt"].
Proof.
  eapply Permutation_trans.
  - apply Permutation_map.
    refine (reload_shows_matches st_search _ _). vm_compute. reflexivity.
  - apply (bool_decide_unpack _). vm_compute. exact I.
Defined.

(** A node that [stat] accepts. *)
Lemma list_dir_item fs p h items it :
  list_dir fs p h = Ok items →
  it ∈ items ↔
  ∃ k ename n, nodes fs !! k = Some n ∧ os.child_name p k = Some ename
    ∧ (h = true ∨ PyStr.startswith "."%char ename = false)
    ∧ match n with
      | File None _ => False
      | File (Some st) _ =>
          it = FMItem.mk (posixpath.join p ename) false (st_size st) (st_mtime st)
      | Dir m => it = FMItem.mk (posixpath.join p ename) true 0 m
      end.
Proof.
  unfold list_dir, os.scandir.
  destruct (nodes fs !! p) as [[?|?]|]; try done. intros [= <-].
  rewrite list_elem_of_omap. split.
  - intros ([ename n] & Hin & Hit).
    apply list_elem_of_omap in Hin as ([k n'] & Hk%elem_of_map_to_list & Hc).
    simpl in Hc. destruct (os.child_name p k) as [e|] eqn:Hchild; [|done].
    injection Hc as -> ->.
    exists k, ename, n. split; [done|]. split; [done|].
    destruct h; simpl in Hit.
    + split; [by left|]. destruct n as [[s|] z|m]; naive_solver.
    + destruct (PyStr.startswith "."%char ename) eqn:Hdot; [done|].
      split; [by right|]. destruct n as [[s|] z|m]; naive_solver.
  - intros (k & ename & n & Hk & Hchild & Hvis & Hit).
    exists (ename, n). split.
    + apply list_elem_of_omap. exists (k, n). split; [by apply elem_of_map_to_list|].
      simpl. by rewrite Hchild.
    + simpl.
      assert (negb h && PyStr.startswith "."%char ename = false) as ->.
      { destruct Hvis as [->| ->]; [done|apply andb_false_r]. }
      destruct n as [[s|] z|m]; [by subst|done|by subst].
Qed.

(** An immediate child's key is the directory, a separator and the
    separator-free name. *)
Lemma child_name_key p k ename :
  os.child_name p k = Some ename →
  k = posixpath.with_sep p +:+ ename ∧ PyStr.has_char PyStr.sep ename = false.
Proof.
  unfold os.child_name, posixpath.under.
  destruct (negb _ && String.prefix _ k) eqn:Hu; [|done].
  apply andb_true_iff in Hu as [_ Hpre].
  destruct (PyStr.has_char _ _) eqn:Hc; [done|]. intros [= <-].
  split; [by apply prefix_split|done].
Qed.

Lemma list_dir_ok fs p h :
  os.isdir fs p = true → ∃ items, list_dir fs p h = Ok items.
Proof.
  unfold os.isdir, list_dir, os.scandir.
  destruct (nodes fs !! p) as [[?|?]|]; try done. eauto.
Qed.

(** The path of a listed entry is the key of the child it stands for. *)
Lemma list_dir_item_path fs p h items it :
  p ≠ "" → list_dir fs p h = Ok items → it ∈ items →
  ∃ ename n, nodes fs !! FMItem.path it = Some n
    ∧ os.child_name p (FMItem.path it) = Some ename
    ∧ (h = true ∨ PyStr.startswith "."%char ename = false)
    ∧ (∀ z, n ≠ File None z)
    ∧ FMItem.path it = posixpath.join p ename
    ∧ FMItem.is_dir it = node_is_dir n.
Proof.
  intros Hp Hls (k & ename & n & Hk & Hchild & Hvis & Hit)%(list_dir_item _ _ _ _ _ Hls).
  destruct (child_name_key _ _ _ Hchild) as [Hkey Hsep].
  assert (posixpath.join p ename = k) as Hjoin
    by (by rewrite (join_with_sep _ _ Hp Hsep)).
  exists ename, n.
  destruct n as [[s|] z|m]; [subst it| done |subst it]; simpl; rewrite Hjoin;
    repeat split; done.
Qed.

Lemma pipeline_perm_blank query key desc items :
  PyStr.strip (PyStr.lower query) = "" → pipeline query key desc items ≡ₚ items.
Proof.
  intros Hq. unfold pipeline. rewrite sort_items_perm, Hq.
  by rewrite bool_decide_eq_true_2.
Qed.

Lemma pipeline_subset query key desc items it :
  it ∈ pipeline query key desc items → it ∈ items.
Proof.
  unfold pipeline. rewrite sort_items_perm.
  case_bool_decide; simpl; [done|]. by intros [_ ?]%list_elem_of_filter.
Qed.

Lemma rows_paths sel (l : list FMItem.t) :
  map row_path (map (make_row sel) l) = map FMItem.path l.
Proof. induction l as [|x l IH]; simpl; [done|]. by rewrite IH. Qed.

(** X6. With a blank query, the rows of a listable, non-empty current
    path stand for exactly its immediate children on the disk that can
    be stat'ed and are not hidden (a name starting with a dot counts
    as hidden unless [show_hidden] is on): every such child has a row
    with its path, and no row has any other path. *)
Theorem reload_lists_children (st : Root) (k : string) :
  os.isdir (disk st) (current_path st) = true →
  current_path st ≠ "" →
  PyStr.strip (PyStr.lower (search_query st)) = "" →
  k ∈ map row_path (rv_data (reload st)) ↔
  ∃ ename n, nodes (disk st) !! k = Some n
    ∧ os.child_name (current_path st) k = Some ename
    ∧ (show_hidden st = true ∨ PyStr.startswith "."%char ename = false)
    ∧ (∀ z, n ≠ File None z).
Proof.
  intros Hdir Hp Hq.
  destruct (list_dir_ok _ _ (show_hidden st) Hdir) as [items Hls].
  rewrite (reload_rows st items Hls), rows_paths.
  rewrite (pipeline_perm_blank _ _ _ _ Hq). rewrite list_elem_of_fmap. split.
  - intros (it & -> & Hit).
    destruct (list_dir_item_path _ _ _ _ _ Hp Hls Hit)
      as (ename & n & Hn & Hc & Hv & Hs & _).
    by exists ename, n.
  - intros (ename & n & Hn & Hc & Hv & Hs).
    destruct (child_name_key _ _ _ Hc) as [Hkey Hsep].
    assert (posixpath.join (current_path st) ename = k) as Hjoin
      by (by rewrite (join_with_sep _ _ Hp Hsep)).
    destruct n as [[s|] z|m]; [| by destruct (Hs z) |].
    + exists (FMItem.mk k false (st_size s) (st_mtime s)). split; [done|].
      apply (list_dir_item _ _ _ _ _ Hls). exists k, ename, (File (Some s) z).
      rewrite Hjoin. done.
    + exists (FMItem.mk k true 0 m). split; [done|].
      apply (list_dir_item _ _ _ _ _ Hls). exists k, ename, (Dir m).
      rewrite Hjoin. done.
Qed.

Lemma reload_lists_children_witness :
  "/d/sub" ∈ map row_path (rv_data (reload (mk_root "/d" "name" false [] [] disk_h))).
Proof.
  apply (reload_lists_children (mk_root "/d" "name" false [] [] disk_h) "/d/sub");
    [vm_compute; reflexivity|discriminate|vm_compute; reflexivity|].
  exists "sub", (Dir 8). repeat split; [vm_compute; reflexivity..| |discriminate].
  right. reflexivity.
Defined.

Lemma list_dir_paths_sublist fs p h items :
  p ≠ "" → list_dir fs p h = Ok items →
  map FMItem.path items `sublist_of` (map_to_list (nodes fs)).*1.
Proof.
  intros Hp. unfold list_dir, os.scandir.
  destruct (nodes fs !! p) as [[?|?]|]; try done. intros [= <-].
  induction (map_to_list (nodes fs)) as [|[k n] l IH]; [done|].
  cbn [omap list_omap fst snd fmap list_fmap].
  destruct (os.child_name p k) as [ename|] eqn:Hchild; [|by apply sublist_cons].
  cbn [omap list_omap].
  destruct (child_name_key _ _ _ Hchild) as [Hkey Hsep].
  assert (posixpath.join p ename = k) as Hjoin
    by (by rewrite (join_with_sep _ _ Hp Hsep)).
  destruct (negb h && PyStr.startswith "."%char ename); [by apply sublist_cons|].
  destruct n as [[s|] z|m]; cbn [map FMItem.path]; rewrite ?Hjoin;
    first [by apply sublist_skip | by apply sublist_cons].
Qed.

(** X7. No path is listed twice: the row paths of a listable,
    non-empty current path are pairwise distinct, under every query,
    sort key and direction. *)
Theorem reload_rows_distinct (st : Root) :
  os.isdir (disk st) (current_path st) = true →
  current_path st ≠ "" →
  NoDup (map row_path (rv_data (reload st))).
Proof.
  intros Hdir Hp.
  destruct (list_dir_ok _ _ (show_hidden st) Hdir) as [items Hls].
  rewrite (reload_rows st items Hls), rows_paths.
  assert (NoDup (map FMItem.path items)) as Hnd.
  { apply (sublist_NoDup _ _ (NoDup_fst_map_to_list (nodes (disk st)))).
    by eapply list_dir_paths_sublist. }
  unfold pipeline. rewrite sort_items_perm.
  case_bool_decide; [done|].
  apply (sublist_NoDup _ _ Hnd).
  apply (fmap_sublist FMItem.path), sublist_filter.
Qed.

Lemma reload_rows_distinct_witness :
  NoDup (map row_path (rv_data (reload st_search))).
Proof.
  apply reload_rows_distinct; [vm_compute; reflexivity|discriminate].
Defined.

Lemma startswith_app_l c a r s :
  PyStr.startswith c (String a r +:+ s) = PyStr.startswith c (String a r).
Proof. done. Qed.

(** X8. With [show_hidden] off and an absolute current path, no row
    carries a name that starts with a dot, whatever the query and the
    sort. *)
Theorem reload_hides_dot_names (st : Root) (row : Row) :
  os.isdir (disk st) (current_path st) = true →
  PyStr.startswith PyStr.sep (current_path st) = true →
  show_hidden st = false →
  row ∈ rv_data (reload st) →
  PyStr.startswith "."%char (row_name row) = false.
Proof.
  intros Hdir Habs Hhid.
  assert (current_path st ≠ "") as Hp by (by destruct (current_path st)).
  destruct (list_dir_ok _ _ (show_hidden st) Hdir) as [items Hls].
  rewrite (reload_rows st items Hls).
  intros (it & -> & Hit%pipeline_subset)%list_elem_of_fmap.
  destruct (list_dir_item_path _ _ _ _ _ Hp Hls Hit)
    as (ename & n & _ & Hc & Hv & _ & Hpath & _).
  destruct (child_name_key _ _ _ Hc) as [_ Hsep].
  destruct Hv as [Hv|Hv]; [congruence|].
  simpl. unfold FMItem.name. rewrite Hpath, (basename_join _ _ Hp Hsep).
  case_bool_decide as He; [|done].
  subst ename. rewrite (join_with_sep _ _ Hp Hsep), app_empty_r.
  unfold posixpath.with_sep.
  destruct (current_path st) as [|a r]; [done|].
  simpl in Habs. apply bool_decide_eq_true in Habs as ->.
  by destruct (PyStr.endswith _ _).
Qed.

Lemma reload_hides_dot_names_witness :
  Forall (λ row, PyStr.startswith "."%char (row_name row) = false)
         (rv_data (reload (mk_root "/d" "name" false [] [] disk_h))).
Proof.
  apply Forall_forall. intros row Hrow.
  eapply (reload_hides_dot_names (mk_root "/d" "name" false [] [] disk_h));
    [vm_compute; reflexivity..|exact Hrow].
Defined.

(** ** Rows against disk and selection *)

(** X9. Every row of a listable, non-empty current path is faithful to
    the disk and to the selection: there is a node at its path, its
    directory flag is that node's kind, its name is the last component
    of its path, and its selected flag says whether its path is in the
    selection. *)
Theorem reload_rows_faithful (st : Root) (row : Row) :
  os.isdir (disk st) (current_path st) = true →
  current_path st ≠ "" →
  row ∈ rv_data (reload st) →
  ∃ ename n, nodes (disk st) !! row_path row = Some n
    ∧ row_is_dir row = node_is_dir n
    ∧ row_path row = posixpath.join (current_path st) ename
    ∧ (ename ≠ "" → row_name row = ename)
    ∧ row_selected row = bool_decide (row_path row ∈ selection st).
Proof.
  intros Hdir Hp.
  destruct (list_dir_ok _ _ (show_hidden st) Hdir) as [items Hls].
  rewrite (reload_rows st items Hls).
  intros (it & -> & Hit%pipeline_subset)%list_elem_of_fmap.
  destruct (list_dir_item_path _ _ _ _ _ Hp Hls Hit)
    as (ename & n & Hn & Hc & _ & _ & Hpath & Hkind).
  destruct (child_name_key _ _ _ Hc) as [_ Hsep].
  exists ename, n. simpl. repeat split; try done.
  intros Hne. unfold FMItem.name.
  rewrite Hpath, (basename_join _ _ Hp Hsep). by rewrite bool_decide_eq_false_2.
Qed.

Lemma reload_rows_faithful_witness :
  ∃ ename n, nodes disk_h !! "/d/sub" = Some n ∧ true = node_is_dir n
    ∧ "/d/sub" = posixpath.join "/d" ename
    ∧ (ename ≠ "" → "sub" = ename)
    ∧ true = bool_decide ("/d/sub" ∈ ({[ "/d/sub" ]} : gset string)).
Proof.
  apply (reload_rows_faithful (mk_root "/d" "name" false ["/d/sub"] [] disk_h)
           (mkRow "sub" true true "/d/sub"));
    [vm_compute; reflexivity|discriminate|].
  apply list_elem_of_lookup. exists 0%nat. vm_compute. reflexivity.
Defined.

(** X10. On a listable directory, [select_all] selects exactly the
    paths of the rows on screen and then shows every row as selected;
    [clear_sel] empties the selection and shows no row as selected. *)
Theorem select_all_clear_sel (st : Root) :
  os.isdir (disk st) (current_path st) = true →
  let shown := reload st in
  selection (select_all shown) = list_to_set (map row_path (rv_data shown))
  ∧ Forall (λ row, row_selected row = true) (rv_data (select_all shown))
  ∧ selection (clear_sel shown) = ∅
  ∧ Forall (λ row, row_selected row = false) (rv_data (clear_sel shown)).
Proof.
  intros Hdir shown.
  destruct (list_dir_ok _ _ (show_hidden st) Hdir) as [items Hls].
  assert (map row_path (rv_data shown)
          = map FMItem.path (pipeline (search_query st) (sort_key st) (sort_desc st) items))
    as Hshown by (unfold shown; by rewrite (reload_rows st items Hls), rows_paths).
  pose proof (reload_disk st) as Hd. pose proof (reload_current_path st) as Hc.
  pose proof (reload_show_hidden st) as Hh. pose proof (reload_search_query st) as Hq.
  pose proof (reload_sort_key st) as Hk. pose proof (reload_sort_desc st) as Hs.
  fold shown in Hd, Hc, Hh, Hq, Hk, Hs. clearbody shown.
  unfold select_all, clear_sel. rewrite !reload_selection, !reload_rows_eq.
  cbn [disk current_path show_hidden search_query sort_key sort_desc selection
       set_selection rv_data].
  rewrite Hd, Hc, Hh, Hq, Hk, Hs, Hls, Hshown.
  split; [done|]. split; [|split; [done|]].
  - apply Forall_forall. intros row (it & -> & Hit)%list_elem_of_fmap. simpl.
    apply bool_decide_eq_true. apply elem_of_list_to_set, list_elem_of_fmap. eauto.
  - apply Forall_forall. intros row (it & -> & Hit)%list_elem_of_fmap. simpl.
    apply bool_decide_eq_false. set_solver.
Qed.

Lemma select_all_clear_sel_witness :
  selection (select_all (reload (mk_root "/tmp/x" "name" false [] [] disk_x)))
  = {[ "/tmp/x/A"; "/tmp/x/b.txt" ]}.
Proof.
  destruct (select_all_clear_sel (mk_root "/tmp/x" "name" false [] [] disk_x))
    as (-> & _); [vm_compute; reflexivity|].
  vm_compute. reflexivity.
Defined.

Lemma size_toggle (p : string) (sel : gset string) :
  size (toggle p sel)
  = if bool_decide (p ∈ sel) then (size sel - 1)%nat else S (size sel).
Proof.
  unfold toggle. case_bool_decide as Hin.
  - rewrite decide_True by done.
    rewrite size_difference by set_solver. by rewrite size_singleton.
  - rewrite decide_False by done.
    rewrite size_union by set_solver. rewrite size_singleton. lia.
Qed.

(** X11. A tap on row [i] changes the membership of that row's path
    and of no other path, and the status then counts the selection:
    one more than before when the path was added, one less when it was
    removed. A tap on an index beyond the rows changes nothing at
    all. *)
Theorem toggle_select_effect (st : Root) (i : nat) :
  match rv_data st !! i with
  | None => toggle_select i st = st
  | Some row =>
      let p := row_path row in
      (∀ q, q ≠ p → q ∈ selection (toggle_select i st) ↔ q ∈ selection st)
      ∧ (p ∈ selection (toggle_select i st) ↔ p ∉ selection st)
      ∧ status (toggle_select i st)
        = "Selected: " +:+
          PyStr.of_nat (if bool_decide (p ∈ selection st)
                        then (size (selection st) - 1)%nat
                        else S (size (selection st)))
  end.
Proof.
  unfold toggle_select. destruct (rv_data st !! i) as [row|]; [|done].
  cbn zeta. cbn [selection status set_status]. rewrite reload_selection.
  cbn [selection set_selection]. rewrite size_toggle.
  split; [|split; [apply toggle_flips|done]].
  intros q Hq. unfold toggle. destruct (decide (row_path row ∈ selection st)); set_solver.
Qed.

(** ** Dialog input *)

Lemma lstrip_blank s : isblank s = true → PyStr.lstrip s = "".
Proof.
  induction s as [|a s IH]; [done|]. simpl.
  intros [-> Hs]%andb_true_iff. by apply IH.
Qed.

Lemma strip_blank s : isblank s = true → PyStr.strip s = "".
Proof. intros Hs. unfold PyStr.strip. by rewrite (lstrip_blank _ Hs). Qed.

(** X12. A dialog answered with nothing but white space (or with
    nothing, or cancelled) does nothing at all: no folder is created,
    nothing is renamed, no archive is written, and no toast appears;
    the state is the one before. *)
Theorem blank_input_ignored (text : string) (st : Root) :
  isblank text = true →
  new_folder (Some text) st = st ∧ new_folder None st = st
  ∧ (∀ src, selection st = {[ src ]} →
       rename_item (Some text) st = st ∧ rename_item None st = st)
  ∧ (selection st ≠ ∅ → ∀ order zbytes,
       zip_selection order zbytes (Some text) st = st
       ∧ zip_selection order zbytes None st = st).
Proof.
  intros Hblank%strip_blank. split; [|split; [done|split]].
  - unfold new_folder, InputPopup, new_folder_ok. by rewrite Hblank.
  - intros src Hsel. unfold rename_item. rewrite Hsel, elements_singleton.
    unfold InputPopup, rename_ok. by rewrite Hblank.
  - intros Hsel order zbytes. unfold zip_selection.
    rewrite bool_decide_eq_false_2 by done.
    unfold InputPopup, zip_ok. by rewrite Hblank.
Qed.

Lemma blank_input_ignored_witness :
  let st := mk_root "/d" "name" false ["/d/a"] [] disk_d in
  new_folder (Some "   ") st = st.
Proof.
  intros st. apply (blank_input_ignored "   " st). reflexivity.
Defined.

(** ** Clipboard *)

(** X13. [copy_to_clipboard] on a non-empty selection replaces the
    clipboard by the selected paths, each exactly once (whatever was
    staged before is dropped, nothing is merged); on an empty
    selection the clipboard keeps its contents. Selection and disk are
    never touched. *)
Theorem copy_to_clipboard_stages (order : list string) (st : Root) :
  iteration_of (selection st) order →
  let st' := copy_to_clipboard order st in
  selection st' = selection st ∧ disk st' = disk st ∧ calls st' = calls st
  ∧ if bool_decide (selection st = ∅)
    then clipboard st' = clipboard st
    else NoDup (clipboard st') ∧ ∀ p, p ∈ clipboard st' ↔ p ∈ selection st.
Proof.
  intros Hit st'. subst st'. unfold copy_to_clipboard.
  case_bool_decide as Hsel; [done|]. cbn.
  repeat split; try done.
  - unfold iteration_of in Hit. rewrite Hit. apply NoDup_elements.
  - unfold iteration_of in Hit. rewrite Hit. apply elem_of_elements.
  - unfold iteration_of in Hit. rewrite Hit. apply elem_of_elements.
Qed.

Lemma copy_to_clipboard_stages_witness :
  let st := mk_root "/w" "name" false ["/w/A"; "/w/C"] ["/old"] disk_w in
  NoDup (clipboard (copy_to_clipboard ["/w/C"; "/w/A"] st))
  ∧ ∀ p, p ∈ clipboard (copy_to_clipboard ["/w/C"; "/w/A"] st) ↔ p ∈ selection st.
Proof.
  intros st.
  assert (iteration_of (selection st) ["/w/C"; "/w/A"]) as Hit
    by (unfold iteration_of; apply (bool_decide_unpack _); vm_compute; exact I).
  destruct (copy_to_clipboard_stages ["/w/C"; "/w/A"] st Hit) as (_ & _ & _ & H).
  rewrite bool_decide_eq_false_2 in H; [exact H|].
  intros Hempty. assert ("/w/A" ∈ selection st) as Hin by (unfold st, mk_root; set_solver).
  rewrite Hempty in Hin. set_solver.
Defined.

Lemma move_step_selection dest_dir st src :
  selection (move_step dest_dir st src) = selection st.
Proof.
  unfold move_step, syscall.
  by destruct (shutil.move _ _ _) as [fs' [ex|]].
Qed.

Lemma move_loop_selection dest_dir batch st :
  selection (move_loop dest_dir batch st) = selection st.
Proof.
  unfold move_loop. revert st.
  induction batch as [|src batch IH]; intros st; simpl; [done|].
  by rewrite IH, move_step_selection.
Qed.

(** X14. The clipboard carries no copy-or-cut mark: after
    [copy_to_clipboard], [move_to_here] moves the very paths that were
    copied, one [shutil.move] each into the current directory, and
    empties the clipboard. The selection is not touched by the move,
    so the moved paths stay selected under their old names. *)
Theorem copy_then_move (order : list string) (st : Root) :
  selection st ≠ ∅ →
  iteration_of (selection st) order →
  let st' := move_to_here (copy_to_clipboard order st) in
  calls st' = calls st ++ map (move_call (current_path st)) order
  ∧ clipboard st' = []
  ∧ selection st' = selection st.
Proof.
  intros Hsel Hit st'. subst st'.
  assert (order ≠ []) as Hne.
  { intros ->. unfold iteration_of in Hit. symmetry in Hit.
    apply Permutation_nil_r in Hit. apply elements_empty_inv in Hit.
    apply leibniz_equiv in Hit. done. }
  unfold copy_to_clipboard. rewrite bool_decide_eq_false_2 by done.
  cbn [clipboard set_clipboard]. unfold move_to_here.
  cbn [clipboard _toast open_popup set_clipboard].
  destruct order as [|o order]; [done|].
  rewrite reload_calls, reload_clipboard, reload_selection.
  cbn [calls clipboard selection set_clipboard current_path _toast open_popup].
  rewrite move_loop_calls, move_loop_selection. done.
Qed.

Lemma copy_then_move_witness :
  let st := mk_root "/t" "name" false ["/w/C"] [] disk_m in
  calls (move_to_here (copy_to_clipboard ["/w/C"] st)) = [CallMove "/w/C" "/t/C"].
Proof.
  intros st.
  assert (selection st ≠ ∅) as Hsel.
  { intros H. assert ("/w/C" ∈ selection st) as Hin by (unfold st, mk_root; set_solver).
    rewrite H in Hin. set_solver. }
  assert (iteration_of (selection st) ["/w/C"]) as Hit
    by (unfold iteration_of; apply (bool_decide_unpack _); vm_compute; exact I).
  destruct (copy_then_move ["/w/C"] st Hsel Hit) as (-> & _).
  vm_compute. reflexivity.
Defined.

(** ** Paste *)

(** The probe of [resolve] always finds a free name. *)
Lemma resolve_total fs dest :
  ∃ r, resolve fs dest = Some r ∧ os.exists_ fs r = false.
Proof.
  unfold resolve, _dedupe_name.
  destruct (os.exists_ fs dest) eqn:Hdest; [|by exists dest].
  destruct (posixpath.splitext dest) as [base ext].
  destruct (dedupe_loop _ fs base ext 1) as [r|] eqn:Hloop.
  - destruct (dedupe_loop_Some _ _ _ _ _ _ Hloop) as (k & _ & -> & Hfree & _).
    by eexists.
  - exfalso. apply (candidates_run_out fs base ext). by apply dedupe_loop_None.
Qed.

(** Copying one file to a free name adds at most that one file. *)
Lemma copy2_adds_file fs src dst fs' r :
  os.exists_ fs dst = false →
  shutil.copy2 fs src dst = (fs', r) →
  nodes fs ⊆ nodes fs' ∧ ∀ k, os.isdir fs' k = true → os.isdir fs k = true.
Proof.
  intros Hfree. unfold shutil.copy2.
  assert (os.isdir fs dst = false) as ->.
  { unfold os.isdir, os.exists_ in *. by destruct (nodes fs !! dst). }
  destruct (nodes fs !! src) as [[[s|] z|m]|]; try (intros [= <- <-]; done).
  repeat (case_match; try (intros [= <- <-]; done)).
  intros [= <- <-]. simpl. split.
  - apply insert_subseteq. by apply exists_lookup_None.
  - intros k. unfold os.isdir. simpl.
    destruct (decide (dst = k)) as [->|Hne];
      [by rewrite lookup_insert_eq|by rewrite lookup_insert_ne].
Qed.

Lemma paste_step_frame dest_dir st src :
  clipboard (paste_step dest_dir st src) = clipboard st
  ∧ selection (paste_step dest_dir st src) = selection st
  ∧ length (calls (paste_step dest_dir st src)) = S (length (calls st)).
Proof.
  unfold paste_step.
  destruct (resolve_total (disk st) (posixpath.join dest_dir (posixpath.basename src)))
    as (r & -> & _).
  unfold syscall.
  destruct (os.isdir (disk st) src);
    [destruct (shutil.copytree _ _ _) as [fs' [ex|]]
    |destruct (shutil.copy2 _ _ _) as [fs' [ex|]]];
    cbn; rewrite ?length_app; simpl; repeat split; lia.
Qed.

Lemma paste_step_files dest_dir st src :
  os.isdir (disk st) src = false →
  nodes (disk st) ⊆ nodes (disk (paste_step dest_dir st src))
  ∧ ∀ k, os.isdir (disk (paste_step dest_dir st src)) k = true →
         os.isdir (disk st) k = true.
Proof.
  intros Hfile. unfold paste_step.
  destruct (resolve_total (disk st) (posixpath.join dest_dir (posixpath.basename src)))
    as (r & -> & Hfree).
  rewrite Hfile. unfold syscall.
  destruct (shutil.copy2 (disk st) src r) as [fs' [ex|]] eqn:Hcopy; cbn;
    exact (copy2_adds_file _ _ _ _ _ Hfree Hcopy).
Qed.

Lemma paste_loop_frame dest_dir batch : ∀ st,
  let st' := foldl (paste_step dest_dir) st batch in
  clipboard st' = clipboard st
  ∧ selection st' = selection st
  ∧ length (calls st') = (length (calls st) + length batch)%nat
  ∧ ((∀ src, src ∈ batch → os.isdir (disk st) src = false) →
     nodes (disk st) ⊆ nodes (disk st')).
Proof.
  induction batch as [|src batch IH]; intros st.
  - simpl. repeat split; try done; lia.
  - simpl. destruct (paste_step_frame dest_dir st src) as (Hc & Hs & Hl).
    destruct (IH (paste_step dest_dir st src)) as (IHc & IHs & IHl & IHn).
    rewrite IHc, IHs, IHl, Hc, Hs, Hl. split; [done|]. split; [done|]. split; [lia|].
    intros Hfiles.
    destruct (paste_step_files dest_dir st src) as [Hsub Hdirs];
      [apply Hfiles; by left|].
    etrans; [exact Hsub|]. apply IHn.
    intros s Hs'. destruct (os.isdir (disk (paste_step dest_dir st src)) s) eqn:E; [|done].
    apply Hdirs in E. rewrite Hfiles in E; [done|by right].
Qed.

(** The name [resolve] hands out: the destination, or the destination
    with a counter before its extension. *)
Lemma resolve_shape fs dest :
  ∃ d, resolve fs dest = Some d
       ∧ (d = dest
          ∨ ∃ k, (1 ≤ k)%nat
                 ∧ d = candidate (fst (posixpath.splitext dest))
                                 (snd (posixpath.splitext dest)) k).
Proof.
  unfold resolve, _dedupe_name.
  destruct (os.exists_ fs dest) eqn:Hdest; [|exists dest; by split; [|left]].
  destruct (posixpath.splitext dest) as [base ext].
  destruct (dedupe_loop _ fs base ext 1) as [r|] eqn:Hloop.
  - destruct (dedupe_loop_Some _ _ _ _ _ _ Hloop) as (k & Hk & -> & _).
    eexists. split; [done|]. right. by exists k.
  - exfalso. apply (candidates_run_out fs base ext). by apply dedupe_loop_None.
Qed.

(** One turn of the paste loop issues one copy of the staged path, and
    the disk afterwards is what that copy made of it. *)
Lemma paste_step_call dest_dir st src :
  ∃ c, copy_call_of dest_dir src c
       ∧ calls (paste_step dest_dir st src) = calls st ++ [c]
       ∧ disk (paste_step dest_dir st src) = run_copy (disk st) c.
Proof.
  unfold paste_step, copy_call_of.
  destruct (resolve_shape (disk st) (posixpath.join dest_dir (posixpath.basename src)))
    as (d & -> & Hshape).
  unfold syscall. destruct (os.isdir (disk st) src).
  - exists (CallCopytree src d). split; [exists d; split; [by left|done]|].
    simpl. by destruct (shutil.copytree _ _ _) as [fs' [ex|]].
  - exists (CallCopy2 src d). split; [exists d; split; [by right|done]|].
    simpl. by destruct (shutil.copy2 _ _ _) as [fs' [ex|]].
Qed.

Lemma paste_loop_calls dest_dir batch : ∀ st,
  ∃ cs, calls (foldl (paste_step dest_dir) st batch) = calls st ++ cs
        ∧ Forall2 (λ c src, copy_call_of dest_dir src c) cs batch
        ∧ disk (foldl (paste_step dest_dir) st batch) = foldl run_copy (disk st) cs.
Proof.
  induction batch as [|src batch IH]; intros st; simpl.
  - exists []. by rewrite app_nil_r.
  - destruct (paste_step_call dest_dir st src) as (c & Hc & Hcalls & Hdisk).
    destruct (IH (paste_step dest_dir st src)) as (cs & -> & Hcs & ->).
    exists (c :: cs). rewrite Hcalls, Hdisk, <- app_assoc.
    split; [done|]. split; [by constructor|done].
Qed.

(** X15. [paste_here] handles every staged path exactly once and in
    order: the calls it issues are one copy per staged path, a
    [copytree] or [copy2] of that very path to the joined destination
    or to that destination with a counter before the extension, and
    the disk afterwards is what these copies, run in turn, make of
    the disk before. Clipboard and selection are left as they were, so
    the same paths can be pasted again. When none of the staged paths
    is a directory, the paste only ever adds files under names that
    were free: every node that was on the disk is still there,
    unchanged. *)
Theorem paste_here_adds_only (st : Root) :
  clipboard st ≠ [] →
  clipboard (paste_here st) = clipboard st
  ∧ selection (paste_here st) = selection st
  ∧ length (calls (paste_here st)) = (length (calls st) + length (clipboard st))%nat
  ∧ ((∀ src, src ∈ clipboard st → os.isdir (disk st) src = false) →
     nodes (disk st) ⊆ nodes (disk (paste_here st)))
  ∧ ∃ cs, calls (paste_here st) = calls st ++ cs
          ∧ Forall2 (λ c src, copy_call_of (current_path st) src c) cs (clipboard st)
          ∧ disk (paste_here st) = foldl run_copy (disk st) cs.
Proof.
  intros Hne.
  assert (paste_here st
          = reload (foldl (paste_step (current_path st)) st (clipboard st))) as ->.
  { unfold paste_here. by destruct (clipboard st). }
  rewrite reload_clipboard, reload_selection, reload_calls, reload_disk.
  destruct (paste_loop_frame (current_path st) (clipboard st) st) as (H1 & H2 & H3 & H4).
  repeat (split; [done|]).
  apply paste_loop_calls.
Qed.

Lemma paste_here_adds_only_witness :
  let st := mk_root "/w" "name" false [] ["/w/A"; "/w/B"; "/nope"] disk_w in
  nodes (disk st) ⊆ nodes (disk (paste_here st))
  ∧ clipboard (paste_here st) = ["/w/A"; "/w/B"; "/nope"]
  ∧ ∃ cs, calls (paste_here st) = cs
          ∧ Forall2 (λ c src, copy_call_of "/w" src c) cs ["/w/A"; "/w/B"; "/nope"]
          ∧ disk (paste_here st) = foldl run_copy (disk st) cs.
Proof.
  intros st.
  assert (clipboard st ≠ []) as Hne by discriminate.
  destruct (paste_here_adds_only st Hne) as (Hc & _ & _ & Hn & cs & Hcs & Hall & Hd).
  split; [|split; [exact Hc|]].
  - apply Hn. intros src Hsrc. cbn in Hsrc.
    repeat (apply elem_of_cons in Hsrc as [->|Hsrc]; [vm_compute; reflexivity|]).
    destruct (not_elem_of_nil _ Hsrc).
  - exists cs. split; [exact Hcs|]. split; [exact Hall|exact Hd].
Defined.

(** In that run [/w/A] is copied to the free name [/w/A (1)], the
    locked [/w/B] and the missing [/nope] fail, and the calls name the
    staged paths one by one. *)
Example paste_here_run :
  let st := paste_here (mk_root "/w" "name" false [] ["/w/A"; "/w/B"; "/nope"] disk_w) in
  calls st = [CallCopy2 "/w/A" "/w/A (1)"; CallCopy2 "/w/B" "/w/B (1)";
              CallCopy2 "/nope" "/w/nope"]
  ∧ nodes (disk st) !! "/w/A (1)" = Some (plain 1 3)
  ∧ nodes (disk st) !! "/w/B (1)" = None
  ∧ length (popups st) = 2%nat.
Proof. repeat split; vm_compute; reflexivity. Qed.

(** ** Delete *)

(** X16. A batch delete never creates or alters a node, and it leaves
    every path alone that is neither a deleted path nor inside one:
    such a path has the same node (or absence of node) after the batch
    as before, whatever failed or succeeded. *)
Theorem delete_touches_only_selected (order : list string) (st : Root) (k : string) :
  (∀ p, p ∈ order → k ≠ p ∧ posixpath.under p k = false) →
  nodes (disk (delete_do order st)) !! k = nodes (disk st) !! k
  ∧ nodes (disk (delete_do order st)) ⊆ nodes (disk st).
Proof.
  unfold delete_do. rewrite reload_disk.
  change (disk (set_selection ∅ ?s)) with (disk s). unfold delete_loop.
  revert st. induction order as [|p order IH]; intros st Hout; [done|].
  simpl.
  assert (disk (delete_step st p) = fst (remove_item (disk st) p)) as Hstep.
  { unfold delete_step, syscall. by destruct (remove_item _ _) as [fs' [ex|]]. }
  destruct (remove_item (disk st) p) as [fs' r] eqn:Hrm. simpl in Hstep.
  destruct (IH (delete_step st p)) as [IHk IHsub];
    [intros q Hq; apply Hout; by right|].
  destruct (Hout p) as [Hk Hu]; [by left|].
  rewrite IHk, Hstep. split; [by eapply remove_item_frame|].
  etrans; [exact IHsub|]. rewrite Hstep. by eapply remove_item_shrinks.
Qed.

Lemma delete_touches_only_selected_witness :
  let st := mk_root "/d" "name" false ["/d/sub"; "/d/img.png"] [] disk_h in
  nodes (disk (delete_do ["/d/sub"; "/d/img.png"] st)) !! "/d/notes2.txt"
  = Some (plain 30 6).
Proof.
  intros st.
  destruct (delete_touches_only_selected ["/d/sub"; "/d/img.png"] st "/d/notes2.txt")
    as [-> _]; [|vm_compute; reflexivity].
  intros p Hp.
  repeat (apply elem_of_cons in Hp as [->|Hp]; [split; [discriminate|vm_compute; reflexivity]|]).
  destruct (not_elem_of_nil _ Hp).
Defined.

(** ** Properties popup *)

Lemma add_size_additive fs t p : add_size fs t p = t + add_size fs 0 p.
Proof. unfold add_size. destruct (os.getsize fs p); lia. Qed.

Lemma padd_assoc a b c : padd (padd a b) c = padd a (padd b c).
Proof. unfold padd. simpl. f_equal; lia. Qed.

Lemma padd_0_r a : padd a (0, 0) = a.
Proof. destruct a. unfold padd. simpl. f_equal; lia. Qed.

Lemma padd_swap a b c : padd (padd a b) c = padd (padd a c) b.
Proof. unfold padd. simpl. f_equal; lia. Qed.

(** A fold whose step adds something that does not depend on the
    running total adds up the steps. *)
Lemma foldl_additive {X} (F : Z * Z → X → Z * Z) :
  (∀ acc x, F acc x = padd acc (F (0, 0) x)) →
  ∀ l acc, foldl F acc l = padd acc (foldl F (0, 0) l).
Proof.
  intros HF. induction l as [|x l IH]; intros acc; simpl.
  - by rewrite padd_0_r.
  - rewrite (IH (F acc x)), (IH (F (0, 0) x)), (HF acc x). apply padd_assoc.
Qed.

Lemma foldl_add_size_additive fs root files t :
  foldl (λ total_size f, add_size fs total_size (posixpath.join root f)) t files
  = t + foldl (λ total_size f, add_size fs total_size (posixpath.join root f)) 0 files.
Proof.
  revert t. induction files as [|f files IH]; intros t; simpl; [lia|].
  rewrite (IH (add_size fs t _)), (IH (add_size fs 0 _)), (add_size_additive fs t). lia.
Qed.

Lemma props_step_additive fs acc p :
  props_step fs acc p = padd acc (props_step fs (0, 0) p).
Proof.
  unfold props_step. destruct (os.isdir fs p).
  - apply foldl_additive. intros a [[root dirs] files]. unfold padd. simpl.
    f_equal. apply foldl_add_size_additive.
  - unfold padd. simpl. f_equal. apply add_size_additive.
Qed.

Lemma props_totals_perm fs (l1 l2 : list string) :
  l1 ≡ₚ l2 → ∀ acc, foldl (props_step fs) acc l1 = foldl (props_step fs) acc l2.
Proof.
  induction 1 as [|x l1 l2 _ IH|x y l|l1 l2 l3 _ IH1 _ IH2]; intros acc; simpl.
  - done.
  - apply IH.
  - f_equal. rewrite (props_step_additive fs (props_step fs acc y) x).
    rewrite (props_step_additive fs acc y).
    rewrite (props_step_additive fs (props_step fs acc x) y).
    rewrite (props_step_additive fs acc x). apply padd_swap.
  - by rewrite IH1.
Qed.

(** X17. The Properties popup does not depend on the order in which
    the selection set happens to be iterated: any two iteration orders
    of the same selection give the same file count and byte total, and
    so the same popup. *)
Theorem props_order_independent (order1 order2 : list string) (st : Root) :
  iteration_of (selection st) order1 →
  iteration_of (selection st) order2 →
  props_totals (disk st) order1 = props_totals (disk st) order2
  ∧ props order1 st = props order2 st.
Proof.
  unfold iteration_of. intros H1 H2.
  assert (order1 ≡ₚ order2) as Hperm by (by rewrite H1, H2).
  assert (props_totals (disk st) order1 = props_totals (disk st) order2) as E
    by apply (props_totals_perm _ _ _ Hperm).
  split; [done|]. unfold props. by rewrite E.
Qed.

Lemma props_order_independent_witness :
  let st := mk_root "/d" "name" false ["/d/sub"; "/d/img.png"; "/d/ghost"] [] disk_h in
  props ["/d/sub"; "/d/img.png"; "/d/ghost"] st
  = props ["/d/ghost"; "/d/sub"; "/d/img.png"] st.
Proof.
  intros st.
  apply (props_order_independent _ _ st);
    unfold iteration_of; apply (bool_decide_unpack _); vm_compute; exact I.
Defined.

(** X18. For a selection without directories, the popup counts one
    file per selected path, whether or not the path can be stat'ed or
    even exists, and the byte total is the sum of the sizes of the
    paths that can be stat'ed; the others add nothing and raise no
    error. The disk is not touched. *)
Theorem props_of_files (order : list string) (st : Root) :
  (∀ p, p ∈ order → os.isdir (disk st) p = false) →
  props_totals (disk st) order
  = (Z.of_nat (length order), Zsum (map (stat_size (disk st)) order))
  ∧ disk (props order st) = disk st
  ∧ length (popups (props order st)) = S (length (popups st)).
Proof.
  intros Hfiles. split; [|split].
  - unfold props_totals.
    assert (∀ l acc, (∀ p, p ∈ l → os.isdir (disk st) p = false) →
              foldl (props_step (disk st)) acc l
              = padd acc (Z.of_nat (length l), Zsum (map (stat_size (disk st)) l))) as H.
    { induction l as [|p l IH]; intros acc Hl; simpl.
      - by rewrite padd_0_r.
      - rewrite IH by (intros q Hq; apply Hl; by right).
        unfold props_step at 1. rewrite Hl by (by left).
        unfold padd, stat_size. simpl. rewrite (add_size_additive _ (snd acc)).
        f_equal; [lia|]. unfold Zsum. lia. }
    rewrite (H order (0, 0) Hfiles). unfold padd. simpl. by f_equal.
  - unfold props. case_bool_decide; [done|]. by destruct (props_totals _ _).
  - unfold props. case_bool_decide.
    + unfold _toast, open_popup. simpl. rewrite length_app. simpl. lia.
    + destruct (props_totals _ _). unfold open_popup. simpl.
      rewrite length_app. simpl. lia.
Qed.

Lemma props_of_files_witness :
  props_totals disk_h ["/d/img.png"; "/d/ghost"; "/d/gone"] = (3, 30).
Proof.
  destruct (props_of_files ["/d/img.png"; "/d/ghost"; "/d/gone"]
              (mk_root "/d" "name" false ["/d/img.png"; "/d/ghost"; "/d/gone"] [] disk_h))
    as [H _].
  - intros p Hp.
    repeat (apply elem_of_cons in Hp as [->|Hp]; [vm_compute; reflexivity|]).
    destruct (not_elem_of_nil _ Hp).
  - exact H.
Defined.

(** ** Archive creation: the other outcomes *)

Lemma open_w_raises fs out_path fs1 ex :
  zipfile.open_w fs out_path = (fs1, Some ex) → fs1 = fs.
Proof.
  unfold zipfile.open_w.
  destruct (nodes fs !! out_path) as [[?|?]|];
    repeat (case_match; simplify_eq/=); by intros [= <-].
Qed.

Lemma open_w_opens fs out_path fs1 :
  zipfile.open_w fs out_path = (fs1, None) →
  nodes fs1 = <[out_path := File (Some (mkStat 0 (clock fs))) (Some [])]> (nodes fs)
  ∧ locked fs1 = locked fs ∧ clock fs1 = clock fs.
Proof.
  unfold zipfile.open_w.
  destruct (nodes fs !! out_path) as [[?|?]|];
    repeat (case_match; simplify_eq/=); by intros [= <-].
Qed.

(** X19. When the archive cannot be opened for writing (its directory
    is missing, the name is taken by a directory, the file is locked),
    nothing is written: the disk is the one before, the selection is
    kept, and the error is shown as a toast. *)
Theorem zip_open_failure (st : Root) (order : list string) (zbytes : Z)
    (name : string) (fs1 : FS) (ex : exn) :
  name ≠ "" →
  let out_path := posixpath.join (current_path st)
    (if PyStr.endswith_str ".zip" name then name else name +:+ ".zip") in
  zipfile.open_w (disk st) out_path = (fs1, Some ex) →
  let st' := zip_ok order zbytes name st in
  disk st' = disk st
  ∧ selection st' = selection st
  ∧ popups st' = popups st ++ [("", str_exn ex)].
Proof.
  intros Hname out_path Hopen st'. subst st'.
  unfold zip_ok. rewrite bool_decide_eq_false_2 by done.
  fold out_path. unfold syscall. rewrite Hopen. cbn.
  by rewrite (open_w_raises _ _ _ _ Hopen).
Qed.

Lemma zip_open_failure_witness :
  let st := mk_root "/missing" "name" false ["/w/A"] [] disk_w in
  disk (zip_ok ["/w/A"] 120 "out" st) = disk st.
Proof.
  intros st.
  assert ("out" ≠ "") as Hname by discriminate.
  refine (proj1 (zip_open_failure st ["/w/A"] 120 "out" (disk st)
                   (FileNotFoundError "/missing/out.zip") Hname _)).
  vm_compute. reflexivity.
Defined.

Lemma zip_write_all_files fs (order : list string) : ∀ members,
  (∀ src, src ∈ order →
     os.is_locked fs src = false
     ∧ ∃ s z, nodes fs !! src = Some (File (Some s) z)) →
  zip_write_all fs (flat_map (zip_jobs fs) order) members
  = (members ++ map posixpath.basename order, None).
Proof.
  induction order as [|src order IH]; intros members Hall; simpl.
  - by rewrite app_nil_r.
  - destruct (Hall src) as (Hlock & s & z & Hsrc); [by left|].
    unfold zip_jobs at 1, os.isdir. rewrite Hsrc. simpl.
    unfold zipfile.write. rewrite Hsrc, Hlock.
    rewrite IH by (intros q Hq; apply Hall; by right).
    by rewrite <- app_assoc.
Qed.

Lemma reload_popups_ok st :
  os.isdir (disk st) (current_path st) = true → popups (reload st) = popups st.
Proof.
  intros Hdir. destruct (list_dir_ok _ _ (show_hidden st) Hdir) as [items Hls].
  unfold reload. by rewrite Hls.
Qed.

(** X20. Zipping regular files that can be read stores each of them
    under its bare file name, in the order the selection is iterated,
    whatever directory it lives in; the archive appears at the output
    path, no other path of the disk changes, and, the current
    directory being listable, no toast is shown. *)
Theorem zip_of_files (st : Root) (order : list string) (zbytes : Z)
    (name : string) (fs1 : FS) :
  name ≠ "" →
  let out_path := posixpath.join (current_path st)
    (if PyStr.endswith_str ".zip" name then name else name +:+ ".zip") in
  zipfile.open_w (disk st) out_path = (fs1, None) →
  (∀ src, src ∈ order →
     os.is_locked fs1 src = false
     ∧ ∃ s z, nodes fs1 !! src = Some (File (Some s) z)) →
  let st' := zip_ok order zbytes name st in
  nodes (disk st') !! out_path
    = Some (File (Some (mkStat zbytes (clock (disk st))))
                 (Some (map posixpath.basename order)))
  ∧ (∀ k, k ≠ out_path → nodes (disk st') !! k = nodes (disk st) !! k)
  ∧ (os.isdir (disk st) (current_path st) = true → popups st' = popups st).
Proof.
  intros Hname out_path Hopen Hfiles st'. subst st'.
  destruct (open_w_opens _ _ _ Hopen) as (Hnodes & _ & Hclock).
  unfold zip_ok. rewrite bool_decide_eq_false_2 by done.
  fold out_path. unfold syscall. rewrite Hopen. cbn [disk set_disk log_call].
  rewrite (zip_write_all_files fs1 order [] Hfiles). cbn [app].
  rewrite reload_disk. cbn [disk set_disk zipfile.close nodes set_nodes].
  rewrite Hclock, Hnodes. split; [by rewrite lookup_insert_eq|]. split.
  - intros k Hk. by rewrite !lookup_insert_ne.
  - intros Hdir. rewrite reload_popups_ok; [done|].
    cbn [disk current_path set_disk]. unfold os.isdir in *.
    cbn [nodes zipfile.close set_nodes]. rewrite Hnodes.
    destruct (decide (out_path = current_path st)) as [E|Hne].
    + exfalso. revert Hopen. unfold zipfile.open_w. rewrite E.
      by destruct (nodes (disk st) !! current_path st) as [[?|?]|].
    + by rewrite !lookup_insert_ne.
Qed.

Lemma zip_of_files_witness :
  let st := mk_root "/w" "name" false ["/w/C"; "/w/A"] [] disk_w in
  nodes (disk (zip_ok ["/w/C"; "/w/A"] 77 "pack.zip" st)) !! "/w/pack.zip"
  = Some (File (Some (mkStat 77 1000)) (Some ["C"; "A"])).
Proof.
  intros st.
  assert ("pack.zip" ≠ "") as Hname by discriminate.
  refine (proj1 (zip_of_files st ["/w/C"; "/w/A"] 77 "pack.zip"
                   (fst (zipfile.open_w (disk st) "/w/pack.zip")) Hname _ _)).
  - vm_compute. reflexivity.
  - intros src Hsrc.
    repeat (apply elem_of_cons in Hsrc as [->|Hsrc];
            [split; [vm_compute; reflexivity|eexists _, _; vm_compute; reflexivity]|]).
    destruct (not_elem_of_nil _ Hsrc).
Defined.

(** ** The shape of a deduplicated name *)

Lemma rsplit_at_head_nonempty c s :
  PyStr.has_char c s = true → fst (PyStr.rsplit_at c s) ≠ "".
Proof.
  destruct s as [|a s]; [done|]. simpl.
  destruct (PyStr.rsplit_at c s) as [h t].
  destruct (PyStr.has_char c s); [done|].
  rewrite orb_false_r. by intros ->.
Qed.

(** A non-empty head of [rsplit_at] ends with the character split at. *)
Lemma rsplit_at_head_last c s :
  fst (PyStr.rsplit_at c s) ≠ "" →
  fst (PyStr.rsplit_at c s)
  = PyStr.drop_last (fst (PyStr.rsplit_at c s)) +:+ String c "".
Proof.
  induction s as [|a s IH]; [done|]. simpl.
  pose proof (rsplit_at_head_nonempty c s) as Hne.
  destruct (PyStr.rsplit_at c s) as [h t]. simpl in *.
  destruct (PyStr.has_char c s).
  - intros _. simpl. specialize (Hne eq_refl). specialize (IH Hne).
    destruct h as [|b h]; [done|].
    change (PyStr.drop_last (String a (String b h)))
      with (String a (PyStr.drop_last (String b h))).
    rewrite app_cons. by f_equal.
  - case_bool_decide as Ha; simpl; [by subst|done].
Qed.

(** [splitext] cuts its argument in two: stem and extension put
    together give the path back. *)
Lemma splitext_app p :
  fst (posixpath.splitext p) +:+ snd (posixpath.splitext p) = p.
Proof.
  unfold posixpath.splitext.
  pose proof (rsplit_at_app PyStr.sep p) as Hp.
  destruct (PyStr.rsplit_at PyStr.sep p) as [head tail]. simpl in Hp.
  pose proof (rsplit_at_app PyStr.extsep tail) as Ht.
  pose proof (rsplit_at_head_last PyStr.extsep tail) as Hl.
  destruct (PyStr.rsplit_at PyStr.extsep tail) as [pre e]. simpl in Ht, Hl.
  case_bool_decide as Hpre; [apply app_empty_r|].
  destruct (PyStr.all_char _ _); [apply app_empty_r|]. simpl.
  etrans; [|symmetry; exact Hp]. rewrite string_app_assoc. f_equal.
  etrans; [|symmetry; exact Ht].
  pose proof (Hl Hpre) as E. set (stem := PyStr.drop_last pre) in *. clearbody stem.
  rewrite E. by rewrite string_app_assoc.
Qed.

(** X21. The name [paste_here] picks for a destination that is taken is
    the destination itself with [" (k)"] put in before the extension,
    for some counter [k ≥ 1]: cutting the destination into stem and
    extension (which together are the destination) and writing the
    counter between them gives the new name, which is free. *)
Theorem resolve_inserts_counter (fs : FS) (dest : string) :
  os.exists_ fs dest = true →
  ∃ (k : nat) (base ext : string),
    (1 ≤ k)%nat ∧ base +:+ ext = dest
    ∧ resolve fs dest = Some (base +:+ " (" +:+ PyStr.of_nat k +:+ ")" +:+ ext)
    ∧ os.exists_ fs (base +:+ " (" +:+ PyStr.of_nat k +:+ ")" +:+ ext) = false.
Proof.
  intros Hdest. unfold resolve, _dedupe_name. rewrite Hdest.
  pose proof (splitext_app dest) as Happ.
  destruct (posixpath.splitext dest) as [base ext]. simpl in Happ.
  destruct (dedupe_loop _ fs base ext 1) as [r|] eqn:Hloop.
  - destruct (dedupe_loop_Some _ _ _ _ _ _ Hloop) as (k & Hk & -> & Hfree & _).
    by exists k, base, ext.
  - exfalso. apply (candidates_run_out fs base ext). by apply dedupe_loop_None.
Qed.

Lemma resolve_inserts_counter_witness :
  ∃ (k : nat) (base ext : string),
    (1 ≤ k)%nat ∧ base +:+ ext = "/d/Notes.TXT"
    ∧ resolve disk_h "/d/Notes.TXT"
      = Some (base +:+ " (" +:+ PyStr.of_nat k +:+ ")" +:+ ext)
    ∧ os.exists_ disk_h (base +:+ " (" +:+ PyStr.of_nat k +:+ ")" +:+ ext) = false.
Proof.
  apply (resolve_inserts_counter disk_h "/d/Notes.TXT"). vm_compute. reflexivity.
Defined.

(** ** The order of a listing *)

Section SortOrder.
Context {A : Type} (lt : A → A → bool) (le : A → A → Prop).
Hypothesis lt_le : ∀ a b, lt a b = true → le a b.
Hypothesis not_lt_le : ∀ a b, lt a b = false → le b a.
Hypothesis le_trans : ∀ a b c, le a b → le b c → le a c.

Lemma insert_sorted_sorted x l :
  StronglySorted le l → StronglySorted le (insert_sorted lt x l).
Proof.
  induction 1 as [|y l Hl IH Hy]; simpl; [repeat constructor|].
  destruct (lt y x) eqn:Hlt.
  - constructor; [done|]. apply Forall_forall.
    intros z [->|Hz]%insert_sorted_elem; [by apply lt_le|].
    by eapply Forall_forall in Hy.
  - constructor; [by constructor|].
    constructor; [by apply not_lt_le|].
    eapply Forall_impl; [exact Hy|]. intros z Hz.
    eapply le_trans; [by apply not_lt_le|done].
Qed.

Lemma list_sort_sorted (rev : bool) l :
  StronglySorted (if rev then flip le else le) (list_sort lt rev l).
Proof.
  assert (∀ l, StronglySorted le (stable_sort lt l)) as Hs.
  { induction l0 as [|x l0 IH]; simpl; [constructor|]. by apply insert_sorted_sorted. }
  unfold list_sort. destruct rev; [|apply Hs].
  apply StronglySorted_reverse_flip, Hs.
Qed.
End SortOrder.

Section KeyOrder.
Context {X : Type} (eqb ltb : X → X → bool) (le : X → X → Prop).
Hypothesis eqb_eq : ∀ x y, eqb x y = true → x = y.
Hypothesis le_refl : ∀ x, le x x.
Hypothesis ltb_le : ∀ x y, ltb x y = true → le x y.
Hypothesis not_ltb_le : ∀ x y, ltb x y = false → le y x.
Hypothesis le_trans : ∀ x y z, le x y → le y z → le x z.

Lemma tuple_lt_le a b : tuple_lt eqb ltb a b = true → key_le le a b.
Proof.
  unfold tuple_lt, key_le. destruct a as [[] x], b as [[] y]; simpl; try done;
    try (intros _; by left).
  all: destruct (eqb x y); simpl; [done|]; intros H; right; split; [done|by apply ltb_le].
Qed.

Lemma not_tuple_lt_le a b : tuple_lt eqb ltb a b = false → key_le le b a.
Proof.
  unfold tuple_lt, key_le. destruct a as [[] x], b as [[] y]; simpl; try done;
    try (intros _; by left).
  all: destruct (eqb x y) eqn:E; simpl; intros H; right; split; try done.
  all: first [apply eqb_eq in E as ->; apply le_refl | by apply not_ltb_le].
Qed.

Lemma key_le_trans a b c : key_le le a b → key_le le b c → key_le le a c.
Proof.
  unfold key_le. destruct a as [[] x], b as [[] y], c as [[] z]; simpl;
    intros [[??]|[? Hxy]] [[??]|[? Hyz]]; try done; try (by left).
  all: right; split; [done|by eapply le_trans].
Qed.
End KeyOrder.

Lemma string_ltb_le x y : PyStr.ltb x y = true → String.le x y.
Proof.
  unfold PyStr.ltb, String.ltb, String.le, String.leb.
  by destruct (String.compare x y).
Qed.

Lemma string_not_ltb_le x y : PyStr.ltb x y = false → String.le y x.
Proof.
  unfold PyStr.ltb, String.ltb, String.le, String.leb.
  rewrite (String.compare_antisym y x).
  by destruct (String.compare x y).
Qed.

(** X22. The entries of a listing come in the order of the chosen key:
    ascending, every entry is at most every later one in the order of
    (not a directory, key field), the field being the lower-cased name,
    the size or the modification time; descending, every entry is at
    least every later one. Names are compared without regard to case. *)
Theorem pipeline_sorted (query key : string) (desc : bool) (items : list FMItem.t) :
  StronglySorted
    (λ a b, if desc return Prop then item_le key b a else item_le key a b)
    (pipeline query key desc items).
Proof.
  unfold pipeline.
  match goal with |- context [sort_items key desc ?l] => generalize l end.
  intros l. unfold sort_items, item_le.
  assert (∀ x y z : string, String.le x y → String.le y z → String.le x z) as Hstr
    by (intros x y z; apply (transitivity (R := String.le))).
  repeat case_bool_decide; try congruence.
  - eapply StronglySorted_mono;
      [|apply (list_sort_sorted _ (λ a b, key_le String.le (name_key a) (name_key b)))].
    + intros a b. by destruct desc.
    + intros a b. apply tuple_lt_le; [apply string_ltb_le].
    + intros a b. apply not_tuple_lt_le;
        [intros x y; apply String.eqb_eq|intros x; apply (reflexivity (R := String.le))
        |apply string_not_ltb_le].
    + intros a b c. by apply key_le_trans.
  - eapply StronglySorted_mono;
      [|apply (list_sort_sorted _ (λ a b, key_le Z.le (size_key a) (size_key b)))].
    + intros a b. by destruct desc.
    + intros a b. apply tuple_lt_le. intros x y. lia.
    + intros a b. apply not_tuple_lt_le;
        [intros x y; apply Z.eqb_eq|intros x; lia|intros x y; lia].
    + intros a b c. apply key_le_trans. intros x y z. lia.
  - eapply StronglySorted_mono;
      [|apply (list_sort_sorted _ (λ a b, key_le Z.le (date_key a) (date_key b)))].
    + intros a b. by destruct desc.
    + intros a b. apply tuple_lt_le. intros x y. lia.
    + intros a b. apply not_tuple_lt_le;
        [intros x y; apply Z.eqb_eq|intros x; lia|intros x y; lia].
    + intros a b c. apply key_le_trans. intros x y z. lia.
Qed.

(** ** Operations followed by the listing *)

Lemma delete_loop_current_path order : ∀ st,
  current_path (delete_loop order st) = current_path st.
Proof.
  unfold delete_loop. induction order as [|q order IH]; intros s; [done|].
  simpl. rewrite IH. unfold delete_step, syscall.
  by destruct (remove_item _ _) as [f [e|]].
Qed.

(** X23. What a batch delete has removed is gone from the screen: when
    every removal of the batch succeeds and the current directory is
    still there afterwards, no row of the listing that follows carries
    a deleted path, and the batch shows no toast. *)
Theorem delete_then_unlisted (order : list string) (st : Root) (fs' : FS) :
  removes_all (disk st) order fs' →
  os.isdir fs' (current_path st) = true →
  current_path st ≠ "" →
  popups (delete_do order st) = popups st
  ∧ ∀ p, p ∈ order → p ∉ map row_path (rv_data (delete_do order st)).
Proof.
  intros Hall Hdir Hp.
  destruct (delete_loop_ok order st fs' Hall) as [Hdisk Hpop].
  pose proof (delete_loop_current_path order st) as Hcur.
  set (s1 := set_selection ∅ (delete_loop order st)).
  assert (disk s1 = fs') as Hd1 by exact Hdisk.
  assert (current_path s1 = current_path st) as Hc1 by exact Hcur.
  assert (os.isdir (disk s1) (current_path s1) = true) as Hdir1 by (by rewrite Hd1, Hc1).
  unfold delete_do. fold s1. split.
  - rewrite (reload_popups_ok _ Hdir1). exact Hpop.
  - intros p Hin Hrow.
    destruct (list_dir_ok _ _ (show_hidden s1) Hdir1) as [items Hls].
    rewrite (reload_rows s1 items Hls), rows_paths in Hrow.
    apply list_elem_of_fmap in Hrow as (it & -> & Hit%pipeline_subset).
    assert (current_path s1 ≠ "") as Hp1 by (by rewrite Hc1).
    destruct (list_dir_item_path _ _ _ _ _ Hp1 Hls Hit) as (ename & n & Hn & _).
    pose proof (removes_all_gone _ _ _ _ Hall Hin) as Hgone.
    unfold os.exists_ in Hgone. rewrite Hd1 in Hn. by rewrite Hn in Hgone.
Qed.

Lemma delete_then_unlisted_witness :
  let st := mk_root "/w" "name" false ["/w/A"; "/w/C"] [] disk_w in
  "/w/A" ∉ map row_path (rv_data (delete_do ["/w/C"; "/w/A"] st)).
Proof.
  intros st.
  pose (d1 := fst (remove_item (disk st) "/w/C")).
  pose (d2 := fst (remove_item d1 "/w/A")).
  assert (removes_all (disk st) ["/w/C"; "/w/A"] d2) as Hall.
  { apply (removes_cons _ _ d1); [vm_compute; reflexivity|].
    apply (removes_cons _ _ d2); [vm_compute; reflexivity|apply removes_nil]. }
  destruct (delete_then_unlisted ["/w/C"; "/w/A"] st d2 Hall) as [_ H];
    [vm_compute; reflexivity|discriminate|].
  apply H. right. left.
Defined.






